(** * Menu item tree of [v2/pkg/menu/menuitem.go]

    A shallow embedding of the Go type [MenuItem] and of its structural
    operations, together with the properties of the tree they maintain.

    Go's [*MenuItem] values are pointers into a garbage-collected heap, and
    the operations mutate the pointed-to structs in place.  The embedding
    keeps that: a heap is a finite map from locations to structs, a pointer
    is [nil] or a location, and every operation is a computation threading
    the heap.  Dereferencing [nil] panics, as in Go.

    A slice field ([SubMenu []*MenuItem]) is modelled by its contents, a list
    of pointers: the operations are described by what they do to the elements
    [0 .. len) of the receiver's slice.  Backing arrays are not modelled.  In
    Go, [append] onto a slice with spare capacity, and the shifts by which
    [removeByID] and [insertItemAtIndex] close and open a gap, write the
    backing array of the receiver in place, and a slice of another struct
    over the same array sees these writes.  So for [Append],
    [insertItemAtIndex] (hence [InsertAfter] and [InsertBefore]) and
    [removeByID], the heaps computed here are right about the struct whose
    children are written and about every field other than [SubMenu]; the
    properties stated of these operations say nothing of the children of
    other structs, unless a hypothesis keeps every other slice off the part
    of the array that is written, as I2, an unfolding in which no struct
    occurs twice, or a receiver that comes from [Prepend] do for
    [removeByID].  [Prepend] and the constructors never write an array that
    another slice can see, and [getByID] and [getItemIndex] only read. *)

From stdpp Require Import gmap strings list fin_maps.
From Stdlib Require Import ZArith.

Local Open Scope Z_scope.
Local Open Scope nat_scope.

Set Warnings "-register-all".

(** ** Data model *)

(** Modelled from the spec: the declaration of [Type] and of its constants
    ([TextType], [SeparatorType], [SubmenuType], [CheckboxType], [RadioType])
    is in a file of the package that is not part of the sources at hand; the
    spec lists the kinds as Text, Separator, Checkbox, Radio and Submenu. *)
Inductive Type_ : Set :=
  | TextType
  | SeparatorType
  | SubmenuType
  | CheckboxType
  | RadioType.

#[global] Instance Type_eq_dec : EqDecision Type_.
Proof. solve_decision. Defined.

(** Modelled from the spec: [Role] is an enumerated tag and [Accelerator] a
    key-binding descriptor, both declared elsewhere in the package and opaque
    to the operations below; a role is kept as its number and an accelerator
    pointer as an optional handle. *)
Definition Role : Set := Z.
Definition Accelerator : Set := positive.

Abbreviation loc := positive.

(** A [*MenuItem]: [None] is [nil]. *)
Abbreviation ptr := (option loc).
Definition nil_ptr : ptr := None.

(** The struct.  A field whose Go name is taken in Rocq (by the keyword
    [Type], by the types [Role] and [Accelerator], by the constructor function
    [SubMenu]) has an underscore appended. *)
Record MenuItem : Set := mkMenuItem {
  ID : string;
  Label : string;
  Role_ : Role;
  Accelerator_ : option Accelerator;
  Type__ : Type_;
  Disabled : bool;
  Hidden : bool;
  Checked : bool;
  SubMenu_ : list ptr;
  parent : ptr
}.

Definition with_parent (p : ptr) (n : MenuItem) : MenuItem :=
  mkMenuItem (ID n) (Label n) (Role_ n) (Accelerator_ n) (Type__ n)
             (Disabled n) (Hidden n) (Checked n) (SubMenu_ n) p.

Definition with_SubMenu (l : list ptr) (n : MenuItem) : MenuItem :=
  mkMenuItem (ID n) (Label n) (Role_ n) (Accelerator_ n) (Type__ n)
             (Disabled n) (Hidden n) (Checked n) l (parent n).

Abbreviation heap := (gmap loc MenuItem).

(** ** Computations over the heap *)

Inductive outcome (A : Type) : Type :=
  | Ok (a : A) (h : heap)
  | Panic
  | OutOfFuel.
Arguments Ok {A} a h.
Arguments Panic {A}.
Arguments OutOfFuel {A}.

Definition M (A : Type) : Type := heap → outcome A.

Definition ret {A} (a : A) : M A := λ h, Ok a h.

Definition bind {A B} (c : M A) (k : A → M B) : M B :=
  λ h, match c h with
       | Ok a h' => k a h'
       | Panic => Panic
       | OutOfFuel => OutOfFuel
       end.

Definition panic {A} : M A := λ _, Panic.
Definition out_of_fuel {A} : M A := λ _, OutOfFuel.

Notation "'let!' x ':=' c 'in' k" := (bind c (λ x, k))
  (at level 10, x name, c at level 100, k at level 200, only parsing).
Notation "'exec!' c 'in' k" := (bind c (λ _, k))
  (at level 10, c at level 100, k at level 200, only parsing).

(** [*p]: reading through a pointer. *)
Definition load (p : ptr) : M MenuItem :=
  λ h, match p with
       | Some l => match h !! l with
                   | Some n => Ok n h
                   | None => Panic
                   end
       | None => Panic
       end.

(** [p.parent = q] and [p.SubMenu = l]: writing one field through a pointer. *)
Definition update (p : ptr) (f : MenuItem → MenuItem) : M unit :=
  λ h, match p with
       | Some l => match h !! l with
                   | Some n => Ok tt (<[l := f n]> h)
                   | None => Panic
                   end
       | None => Panic
       end.

Definition set_parent (p q : ptr) : M unit := update p (with_parent q).
Definition set_SubMenu (p : ptr) (l : list ptr) : M unit := update p (with_SubMenu l).

(** [&MenuItem{...}]: a new struct at a location the heap does not use. *)
Definition alloc (n : MenuItem) : M ptr :=
  λ h, let l := fresh (dom h) in Ok (Some l) (<[l := n]> h).

(** [s[lo:hi]] on the elements of a slice; out of range panics. *)
Definition slice (s : list ptr) (lo hi : Z) : M (list ptr) :=
  if bool_decide (0 ≤ lo ∧ lo ≤ hi ∧ hi ≤ Z.of_nat (length s))%Z
  then ret (take (Z.to_nat hi - Z.to_nat lo) (drop (Z.to_nat lo) s))
  else panic.

(** [s[i] = x] on the elements of a slice; out of range panics. *)
Definition store_index (s : list ptr) (i : Z) (x : ptr) : M (list ptr) :=
  if bool_decide (0 ≤ i < Z.of_nat (length s))%Z
  then ret (<[Z.to_nat i := x]> s)
  else panic.

(** [len(s)].  Go's [int] is 64 bits wide; the only arithmetic the operations
    do on an index is [index + 1] for an index below the length of a slice,
    which does not wrap around, so indices are kept as integers. *)
Definition len (s : list ptr) : Z := Z.of_nat (length s).

(** ** The operations *)

Definition Parent (m : ptr) : M ptr :=
  let! nm := load m in ret (parent nm).

Definition isSubMenu (m : ptr) : M bool :=
  let! nm := load m in ret (bool_decide (Type__ nm = SubmenuType)).

(** [append(m.SubMenu, item)] is given by the elements of the slice of [m]
    afterwards; with spare capacity Go stores [item] in the array in place. *)
Definition Append (m item : ptr) : M bool :=
  let! sub := isSubMenu m in
  if negb sub then ret false
  else
    exec! set_parent item m in
    let! nm := load m in
    exec! set_SubMenu m (SubMenu_ nm ++ [item]) in
    ret true.

Definition Prepend (m item : ptr) : M bool :=
  let! sub := isSubMenu m in
  if negb sub then ret false
  else
    exec! set_parent item m in
    let! nm := load m in
    exec! set_SubMenu m ([item] ++ SubMenu_ nm) in
    ret true.

(** The [for _, submenu := range m.SubMenu] loop of [getByID]; [rec] is the
    recursive call. *)
Fixpoint getByID_range (rec : ptr → M ptr) (items : list ptr) : M ptr :=
  match items with
  | [] => ret nil_ptr
  | submenu :: rest =>
      let! result := rec submenu in
      if result is Some _ then ret result
      else getByID_range rec rest
  end.

Fixpoint getByID (fuel : nat) (m : ptr) (id : string) : M ptr :=
  match fuel with
  | O => out_of_fuel
  | S fuel =>
      let! nm := load m in
      if bool_decide (ID nm = id) then ret m
      else getByID_range (λ submenu, getByID fuel submenu id) (SubMenu_ nm)
  end.

(** The [for index, item := range m.SubMenu] loop of [removeByID], from
    [index] on, over the elements [items] the range expression had left.
    [append(m.SubMenu[:index], m.SubMenu[index+1:]...)] is given by the
    elements of the slice of [m] afterwards; Go moves the tail down in the
    array in place. *)
Fixpoint removeByID_range (rec : ptr → M bool) (m : ptr) (id : string)
    (index : Z) (items : list ptr) : M bool :=
  match items with
  | [] => ret false
  | item :: rest =>
      let! ni := load item in
      if bool_decide (ID ni = id) then
        let! nm := load m in
        let! front := slice (SubMenu_ nm) 0 index in
        let! back := slice (SubMenu_ nm) (index + 1) (len (SubMenu_ nm)) in
        exec! set_SubMenu m (front ++ back) in
        ret true
      else
        let! sub := isSubMenu item in
        if sub then
          let! result := rec item in
          if result then ret result
          else removeByID_range rec m id (index + 1) rest
        else removeByID_range rec m id (index + 1) rest
  end.

Fixpoint removeByID (fuel : nat) (m : ptr) (id : string) : M bool :=
  match fuel with
  | O => out_of_fuel
  | S fuel =>
      let! nm := load m in
      removeByID_range (λ item, removeByID fuel item id) m id 0 (SubMenu_ nm)
  end.

(** The [for index, item := range m.SubMenu] loop of [getItemIndex]. *)
Fixpoint getItemIndex_range (target : ptr) (index : Z) (items : list ptr) : Z :=
  match items with
  | [] => (-1)%Z
  | item :: rest =>
      if bool_decide (item = target) then index
      else getItemIndex_range target (index + 1) rest
  end.

Definition getItemIndex (m target : ptr) : M Z :=
  let! sub := isSubMenu m in
  if negb sub then ret (-1)%Z
  else
    let! nm := load m in
    ret (getItemIndex_range target 0 (SubMenu_ nm)).

(** The two [append]s and the store at [index] are given by the elements of
    the slice of [m] afterwards; with spare capacity Go writes them in the
    array in place. *)
Definition insertItemAtIndex (m : ptr) (index : Z) (target : ptr) : M bool :=
  let! nm := load m in
  if bool_decide (index > len (SubMenu_ nm))%Z then ret false
  else
    exec! set_parent target m in
    let! nm := load m in
    if bool_decide (index = len (SubMenu_ nm)) then
      exec! set_SubMenu m (SubMenu_ nm ++ [target]) in
      ret true
    else
      let! front := slice (SubMenu_ nm) 0 (index + 1) in
      let! back := slice (SubMenu_ nm) index (len (SubMenu_ nm)) in
      exec! set_SubMenu m (front ++ back) in
      let! nm := load m in
      let! s := store_index (SubMenu_ nm) index target in
      exec! set_SubMenu m s in
      ret true.

Definition insertNewItemAfterGivenItem (m target newItem : ptr) : M bool :=
  let! sub := isSubMenu m in
  if negb sub then ret false
  else
    let! targetIndex := getItemIndex m target in
    if bool_decide (targetIndex = -1)%Z then ret false
    else insertItemAtIndex m (targetIndex + 1) newItem.

Definition insertNewItemBeforeGivenItem (m target newItem : ptr) : M bool :=
  let! sub := isSubMenu m in
  if negb sub then ret false
  else
    let! targetIndex := getItemIndex m target in
    if bool_decide (targetIndex = -1)%Z then ret false
    else insertItemAtIndex m targetIndex newItem.

Definition InsertAfter (m item : ptr) : M bool :=
  let! nm := load m in
  if bool_decide (parent nm = nil_ptr) then ret false
  else insertNewItemAfterGivenItem (parent nm) m item.

Definition InsertBefore (m item : ptr) : M bool :=
  let! nm := load m in
  if bool_decide (parent nm = nil_ptr) then ret false
  else insertNewItemBeforeGivenItem (parent nm) m item.

(** ** The constructors *)

Definition Text (label id : string) (accelerator : option Accelerator) : M ptr :=
  alloc (mkMenuItem id label 0%Z accelerator TextType false false false [] nil_ptr).

Definition Separator : M ptr :=
  alloc (mkMenuItem "" "" 0%Z None SeparatorType false false false [] nil_ptr).

Definition Radio (label id : string) (selected : bool)
    (accelerator : option Accelerator) : M ptr :=
  alloc (mkMenuItem id label 0%Z accelerator RadioType false false selected [] nil_ptr).

Definition Checkbox (label id : string) (checked : bool)
    (accelerator : option Accelerator) : M ptr :=
  alloc (mkMenuItem id label 0%Z accelerator CheckboxType false false checked [] nil_ptr).

(** The [for _, item := range items { item.parent = result }] loop. *)
Fixpoint fix_up_parents (result : ptr) (items : list ptr) : M unit :=
  match items with
  | [] => ret tt
  | item :: rest => exec! set_parent item result in fix_up_parents result rest
  end.

Definition SubMenu (label : string) (items : list ptr) : M ptr :=
  let! result := alloc (mkMenuItem "" label 0%Z None SubmenuType false false false items nil_ptr) in
  exec! fix_up_parents result items in
  ret result.

Definition SubMenuWithID (label id : string) (items : list ptr) : M ptr :=
  let! result := alloc (mkMenuItem id label 0%Z None SubmenuType false false false items nil_ptr) in
  exec! fix_up_parents result items in
  ret result.

(** ** Example heaps *)

Definition item (id : string) (kind : Type_) (kids : list ptr) (up : ptr) : MenuItem :=
  mkMenuItem id id 0%Z None kind false false false kids up.

(** The tree [A -> [B "b1", C -> [D "d1"]]] at locations 1 to 4, and a
    detached item [E] at location 5. *)
Definition scenario_heap : heap :=
  list_to_map
    [(1%positive, item "a" SubmenuType [Some 2%positive; Some 3%positive] None);
     (2%positive, item "b1" TextType [] (Some 1%positive));
     (3%positive, item "c" SubmenuType [Some 4%positive] (Some 1%positive));
     (4%positive, item "d1" TextType [] (Some 3%positive));
     (5%positive, item "e" TextType [] None)].

(** A submenu at location 1 to which the item at location 2 was appended
    twice, around the item at location 3; a detached item at location 4. *)
Definition twice_heap : heap :=
  list_to_map
    [(1%positive, item "p" SubmenuType [Some 2%positive; Some 3%positive; Some 2%positive] None);
     (2%positive, item "t" TextType [] (Some 1%positive));
     (3%positive, item "u" TextType [] (Some 1%positive));
     (4%positive, item "x" TextType [] None)].


(** ** Well-formed inputs *)

(** A pointer that can be dereferenced in [h]: not [nil], and to a struct of
    the heap. *)
Definition allocated (h : heap) (p : ptr) : Prop :=
  ∃ l, p = Some l ∧ is_Some (h !! l).


(** ** The tree below a pointer *)

(** What the heap holds below a location, unfolded: the location, the struct
    it holds, and the unfoldings of the children of that struct, in order.
    A struct reachable from itself has no such unfolding. *)
Inductive tree : Type :=
  | Node (l : loc) (n : MenuItem) (kids : list tree).

Definition root (t : tree) : loc := match t with Node l _ _ => l end.
Definition content (t : tree) : MenuItem := match t with Node _ n _ => n end.
Definition subtrees (t : tree) : list tree := match t with Node _ _ kids => kids end.

Inductive shape (h : heap) : tree → Prop :=
  | shape_Node l n kids :
      h !! l = Some n →
      SubMenu_ n = map (λ k, Some (root k)) kids →
      Forall (shape h) kids →
      shape h (Node l n kids).

Fixpoint height (t : tree) : nat :=
  match t with
  | Node _ _ kids => S (max_list (map height kids))
  end.

(** Pre-order: a node, then its children from left to right, each with all
    that is below it. *)
Fixpoint preorder (t : tree) : list (loc * MenuItem) :=
  match t with
  | Node l n kids => (l, n) :: concat (map preorder kids)
  end.

Definition has_id (id : string) (e : loc * MenuItem) : bool :=
  bool_decide (ID e.2 = id).

(** A place below a node: the location [p] of a struct, an index [i] into
    its children, and the unfolding [c] of the child found there. *)
Definition place : Type := loc * nat * tree.

Definition place_has_id (id : string) (e : place) : bool :=
  bool_decide (ID (content e.2) = id).

Section walk.
Context (below : tree → list place) (p : loc).

(** The children [ks] of [p], numbered from [i], each followed by the
    places [below] it. *)
Fixpoint walk (i : nat) (ks : list tree) : list place :=
  match ks with
  | [] => []
  | k :: ks => (p, i, k) :: below k ++ walk (S i) ks
  end.

End walk.

(** All the places below a node, in pre-order. *)
Fixpoint descendants (t : tree) : list place :=
  match t with
  | Node l _ kids => walk descendants l 0 kids
  end.

(** The places below a node, in pre-order, leaving out what is below a child
    that is not of Submenu kind. *)
Fixpoint searched (t : tree) : list place :=
  match t with
  | Node l _ kids =>
      walk (λ k, if bool_decide (Type__ (content k) = SubmenuType)
                 then searched k else []) l 0 kids
  end.

(** The heap where the element at index [i] was taken out of the children
    of [p]. *)
Definition remove_child (p : loc) (i : nat) (h : heap) : heap :=
  match h !! p with
  | Some np => <[p := with_SubMenu (delete i (SubMenu_ np)) np]> h
  | None => h
  end.

(** The places of a child that [removeByID] goes on to search. *)
Definition gate (t : tree) : list place :=
  if bool_decide (Type__ (content t) = SubmenuType) then searched t else [].

(** Removing the first of the places [es] whose child has id [id]: the
    result and the heap left. *)
Definition removal (id : string) (es : list place) (h : heap) : outcome bool :=
  match find (place_has_id id) es with
  | Some (p, i, _) => Ok true (remove_child p i h)
  | None => Ok false h
  end.

(** I3 on an unfolding: only a node of Submenu kind has children. *)
Inductive I3_tree : tree → Prop :=
  | I3_Node l n kids :
      (kids ≠ [] → Type__ n = SubmenuType) →
      Forall I3_tree kids →
      I3_tree (Node l n kids).

(** A text item that was given a child by assigning its [SubMenu] field:
    [A -> [T -> [D "d1"]]] with [T] of Text kind. *)
Definition irregular_heap : heap :=
  list_to_map
    [(1%positive, item "a" SubmenuType [Some 2%positive] None);
     (2%positive, item "t" TextType [Some 3%positive] (Some 1%positive));
     (3%positive, item "d1" TextType [] (Some 2%positive))].

Definition irregular_tree : tree :=
  Node 1%positive (item "a" SubmenuType [Some 2%positive] None)
    [Node 2%positive (item "t" TextType [Some 3%positive] (Some 1%positive))
       [Node 3%positive (item "d1" TextType [] (Some 2%positive)) []]].

Definition scenario_tree : tree :=
  Node 1%positive (item "a" SubmenuType [Some 2%positive; Some 3%positive] None)
    [Node 2%positive (item "b1" TextType [] (Some 1%positive)) [];
     Node 3%positive (item "c" SubmenuType [Some 4%positive] (Some 1%positive))
       [Node 4%positive (item "d1" TextType [] (Some 3%positive)) []]].


(** ** The invariants of the tree *)

(** [a] is among the children of the struct at [p]. *)
Definition child_of (h : heap) (a p : loc) : Prop :=
  ∃ np, h !! p = Some np ∧ Some a ∈ SubMenu_ np.

(** I1 at one struct: its parent is none when no children list holds it, and
    is the struct whose children hold it otherwise. *)
Definition I1_at (h : heap) (a : loc) : Prop :=
  ∀ na, h !! a = Some na →
    (∀ p, child_of h a p → parent na = Some p)
    ∧ ((∀ p, ¬ child_of h a p) → parent na = None).

Definition I1 (h : heap) : Prop := ∀ a, I1_at h a.

(** I2: a struct is in at most one children list, and at most once. *)
Definition I2 (h : heap) : Prop :=
  ∀ p np, h !! p = Some np →
    NoDup (SubMenu_ np)
    ∧ ∀ q nq a, h !! q = Some nq → a ∈ SubMenu_ np → a ∈ SubMenu_ nq → p = q.

(** I3: only a struct of Submenu kind has children. *)
Definition I3 (h : heap) : Prop :=
  ∀ p np, h !! p = Some np → SubMenu_ np ≠ [] → Type__ np = SubmenuType.

(** The same three, as properties of the finite map, which can be decided. *)
Definition I1_map (h : heap) : Prop :=
  map_Forall (λ a na,
    map_Forall (λ p np, Some a ∈ SubMenu_ np → parent na = Some p) h
    ∧ (map_Forall (λ p np, Some a ∉ SubMenu_ np) h → parent na = None)) h.

Definition I2_map (h : heap) : Prop :=
  map_Forall (λ p np,
    NoDup (SubMenu_ np)
    ∧ map_Forall (λ q nq,
        Forall (λ a, a ∈ SubMenu_ nq → p = q) (SubMenu_ np)) h) h.

Definition I3_map (h : heap) : Prop :=
  map_Forall (λ p np, SubMenu_ np ≠ [] → Type__ np = SubmenuType) h.


(** What becomes of the struct [na] at [a] when [x] is given the parent [m]
    and the children of [m] are replaced by [s]. *)
Definition attach_node (m x : loc) (s : list ptr) (a : loc) (na : MenuItem) : MenuItem :=
  with_SubMenu (if decide (a = m) then s else SubMenu_ na)
    (with_parent (if decide (a = x) then Some m else parent na) na).


(** [h'] is [h] after [x] was given the parent [m], a struct of Submenu
    kind, and was put at index [k] among the children of [m]. *)
Definition attached_at (h : heap) (m x : loc) (k : nat) (h' : heap) : Prop :=
  ∃ nm, h !! m = Some nm ∧ Type__ nm = SubmenuType ∧ k ≤ length (SubMenu_ nm)
    ∧ ∀ a, h' !! a =
           attach_node m x (take k (SubMenu_ nm) ++ Some x :: drop k (SubMenu_ nm)) a
             <$> h !! a.

(** A computation returns, in a heap where [I] holds. *)
Definition returns_in (I : heap → Prop) (c : M bool) (h : heap) : Prop :=
  ∃ b h', c h = Ok b h' ∧ I h'.


(** Two submenus, each the only child and the parent of the other: not a
    tree. *)
Definition cyclic_heap : heap :=
  list_to_map
    [(1%positive, item "a" SubmenuType [Some 2%positive] (Some 2%positive));
     (2%positive, item "b" SubmenuType [Some 1%positive] (Some 1%positive))].


(** The unfolding once the element at index [i] was taken out of the children
    of [p]: every node at [p] loses its subtree at [i]. *)
Fixpoint prune (p : loc) (i : nat) (t : tree) : tree :=
  match t with
  | Node l n kids =>
      if decide (l = p)
      then Node l (with_SubMenu (delete i (SubMenu_ n)) n) (delete i (map (prune p i) kids))
      else Node l n (map (prune p i) kids)
  end.

(** The number of nodes of an unfolding that have id [s]. *)
Fixpoint count_id (s : string) (t : tree) : nat :=
  match t with
  | Node _ n kids =>
      (if bool_decide (ID n = s) then 1 else 0) + sum_list_with (count_id s) kids
  end.


(** The node found at a place. *)
Definition place_node (e : place) : loc * MenuItem := (root e.2, content e.2).


(** Every child of every struct is a pointer to a struct of the heap, as it
    is for the pointers of a running program apart from [nil]. *)
Definition closed (h : heap) : Prop :=
  ∀ p np a, h !! p = Some np → a ∈ SubMenu_ np → allocated h a.

(** A submenu was built over [items]: the new struct is at [r], and [h'] has
    the invariants that [h] had. *)
Definition built_over (h : heap) (items : list ptr) (c : M ptr) : Prop :=
  ∃ r h', c h = Ok (Some r) h'
    ∧ h !! r = None
    ∧ closed h'
    ∧ (I1 h → I1 h')
    ∧ (I2 h → NoDup items → I2 h')
    ∧ (I3 h → I3 h').


(** What an insertion of [x] may do from [h]: return false with the heap
    unchanged, or return true in a heap where a struct [p] of Submenu kind
    has one child more, [x] among them, and [x.Parent()] is [p]. *)
Definition fails_or_links (h : heap) (x : loc) (c : M bool) : Prop :=
  c h = Ok false h
  ∨ ∃ h' p np np',
      c h = Ok true h'
      ∧ h !! p = Some np ∧ Type__ np = SubmenuType
      ∧ h' !! p = Some np' ∧ Some x ∈ SubMenu_ np'
      ∧ length (SubMenu_ np') = S (length (SubMenu_ np))
      ∧ Parent (Some x) h' = Ok (Some p) h'.


(** [x] is linked below [m] in [h']: it is among the children of [m], and
    its parent is [m]. *)
Definition linked (h' : heap) (x m : loc) : Prop :=
  ∃ nm' nx', h' !! m = Some nm' ∧ Some x ∈ SubMenu_ nm'
             ∧ h' !! x = Some nx' ∧ parent nx' = Some m.

(** In [h'], the children of [m] are [s] and the parent of [x] is [m]. *)
Definition holds_child (h' : heap) (m x : loc) (s : list ptr) : Prop :=
  ∃ nm' nx', h' !! m = Some nm' ∧ SubMenu_ nm' = s
             ∧ h' !! x = Some nx' ∧ parent nx' = Some m.


(** ** Running a computation step by step *)

Lemma load_ok (h : heap) l n : h !! l = Some n → load (Some l) h = Ok n h.
Proof. intros H. unfold load. by rewrite H. Qed.

Lemma update_ok (h : heap) l n f :
  h !! l = Some n → update (Some l) f h = Ok tt (<[l := f n]> h).
Proof. intros H. unfold update. by rewrite H. Qed.

Lemma bind_ok {A B} (c : M A) (k : A → M B) (h h' : heap) a :
  c h = Ok a h' → bind c k h = k a h'.
Proof. intros H. unfold bind. by rewrite H. Qed.

Lemma isSubMenu_ok (h : heap) l n :
  h !! l = Some n → isSubMenu (Some l) h = Ok (bool_decide (Type__ n = SubmenuType)) h.
Proof. intros H. unfold isSubMenu. by rewrite (bind_ok _ _ _ _ _ (load_ok _ _ _ H)). Qed.

Lemma set_parent_ok (h : heap) l n q :
  h !! l = Some n → set_parent (Some l) q h = Ok tt (<[l := with_parent q n]> h).
Proof. apply update_ok. Qed.

Lemma set_SubMenu_ok (h : heap) l n s :
  h !! l = Some n → set_SubMenu (Some l) s h = Ok tt (<[l := with_SubMenu s n]> h).
Proof. apply update_ok. Qed.

(** The struct at [m] once [x.parent = m] has run: [x] may be [m] itself. *)
Lemma lookup_after_set_parent (h : heap) m x nm nx q :
  h !! m = Some nm → h !! x = Some nx →
  ∃ nm1, <[x := with_parent q nx]> h !! m = Some nm1
         ∧ SubMenu_ nm1 = SubMenu_ nm ∧ Type__ nm1 = Type__ nm ∧ ID nm1 = ID nm
         ∧ (x ≠ m → nm1 = nm) ∧ (x = m → nm1 = with_parent q nm).
Proof.
  intros Hm Hx. destruct (decide (x = m)) as [->|Hne].
  - rewrite lookup_insert_eq. assert (nx = nm) as -> by congruence.
    eexists. split; [done|]. by repeat split.
  - rewrite lookup_insert_ne by done. exists nm. by repeat split.
Qed.

(** ** [Append] and [Prepend] *)

Lemma Append_not_submenu (h : heap) m nm item :
  h !! m = Some nm → Type__ nm ≠ SubmenuType →
  Append (Some m) item h = Ok false h.
Proof.
  intros Hm Hty. unfold Append.
  rewrite (bind_ok _ _ _ _ _ (isSubMenu_ok _ _ _ Hm)).
  by rewrite bool_decide_eq_false_2.
Qed.

Lemma Append_submenu (h : heap) m nm x nx :
  h !! m = Some nm → h !! x = Some nx → Type__ nm = SubmenuType →
  ∃ nm1, <[x := with_parent (Some m) nx]> h !! m = Some nm1
    ∧ SubMenu_ nm1 = SubMenu_ nm
    ∧ Append (Some m) (Some x) h =
      Ok true (<[m := with_SubMenu (SubMenu_ nm ++ [Some x]) nm1]>
                 (<[x := with_parent (Some m) nx]> h)).
Proof.
  intros Hm Hx Hty.
  destruct (lookup_after_set_parent h m x nm nx (Some m) Hm Hx)
    as (nm1 & Hm1 & Hs & _).
  exists nm1. split; [done|]. split; [done|]. unfold Append.
  rewrite (bind_ok _ _ _ _ _ (isSubMenu_ok _ _ _ Hm)).
  rewrite bool_decide_eq_true_2 by done. simpl.
  rewrite (bind_ok _ _ _ _ _ (set_parent_ok _ _ _ _ Hx)).
  rewrite (bind_ok _ _ _ _ _ (load_ok _ _ _ Hm1)).
  rewrite (bind_ok _ _ _ _ _ (set_SubMenu_ok _ _ _ _ Hm1)).
  by rewrite Hs.
Qed.

Lemma Prepend_not_submenu (h : heap) m nm item :
  h !! m = Some nm → Type__ nm ≠ SubmenuType →
  Prepend (Some m) item h = Ok false h.
Proof.
  intros Hm Hty. unfold Prepend.
  rewrite (bind_ok _ _ _ _ _ (isSubMenu_ok _ _ _ Hm)).
  by rewrite bool_decide_eq_false_2.
Qed.

Lemma Prepend_submenu (h : heap) m nm x nx :
  h !! m = Some nm → h !! x = Some nx → Type__ nm = SubmenuType →
  ∃ nm1, <[x := with_parent (Some m) nx]> h !! m = Some nm1
    ∧ SubMenu_ nm1 = SubMenu_ nm
    ∧ Prepend (Some m) (Some x) h =
      Ok true (<[m := with_SubMenu (Some x :: SubMenu_ nm) nm1]>
                 (<[x := with_parent (Some m) nx]> h)).
Proof.
  intros Hm Hx Hty.
  destruct (lookup_after_set_parent h m x nm nx (Some m) Hm Hx)
    as (nm1 & Hm1 & Hs & _).
  exists nm1. split; [done|]. split; [done|]. unfold Prepend.
  rewrite (bind_ok _ _ _ _ _ (isSubMenu_ok _ _ _ Hm)).
  rewrite bool_decide_eq_true_2 by done. simpl.
  rewrite (bind_ok _ _ _ _ _ (set_parent_ok _ _ _ _ Hx)).
  rewrite (bind_ok _ _ _ _ _ (load_ok _ _ _ Hm1)).
  rewrite (bind_ok _ _ _ _ _ (set_SubMenu_ok _ _ _ _ Hm1)).
  by rewrite Hs.
Qed.

(** What a heap looks like once [x] was given the parent [m] and then the
    children of [m] were replaced by [s]: the two writes may hit the same
    struct. *)
Lemma attached_heap (h : heap) m x nx nm1 s :
  h !! x = Some nx →
  <[x := with_parent (Some m) nx]> h !! m = Some nm1 →
  let h' := <[m := with_SubMenu s nm1]> (<[x := with_parent (Some m) nx]> h) in
  (∃ nm', h' !! m = Some nm' ∧ SubMenu_ nm' = s)
  ∧ (∃ nx', h' !! x = Some nx' ∧ parent nx' = Some m)
  ∧ (∀ l, l ≠ m → l ≠ x → h' !! l = h !! l).
Proof.
  intros Hx Hm1 h'. subst h'. split; [|split].
  - eexists. by rewrite lookup_insert_eq.
  - destruct (decide (x = m)) as [->|Hne].
    + rewrite lookup_insert_eq in Hm1. injection Hm1 as <-.
      eexists. by rewrite lookup_insert_eq.
    + eexists. rewrite lookup_insert_ne by done. by rewrite lookup_insert_eq.
  - intros l Hlm Hlx. by rewrite !lookup_insert_ne.
Qed.

(** C5. On a receiver [m] of Submenu kind, [m.Append(x)] returns true, leaves
    [x] with parent [m] and the children of [m] equal to the former children
    followed by [x] (so [x] is last and the former children keep their
    order); on a receiver of any other kind it returns false and the heap,
    hence [m] and [x], is unchanged. *)
Theorem Append_correct (h : heap) (m : loc) (nm : MenuItem) :
  h !! m = Some nm →
  (Type__ nm = SubmenuType → ∀ x nx, h !! x = Some nx →
     ∃ h' nm' nx',
       Append (Some m) (Some x) h = Ok true h'
       ∧ h' !! m = Some nm' ∧ h' !! x = Some nx'
       ∧ parent nx' = Some m
       ∧ SubMenu_ nm' = SubMenu_ nm ++ [Some x]
       ∧ last (SubMenu_ nm') = Some (Some x))
  ∧ (Type__ nm ≠ SubmenuType → ∀ x, Append (Some m) x h = Ok false h).
Proof.
  intros Hm. split.
  - intros Hty x nx Hx.
    destruct (Append_submenu h m nm x nx Hm Hx Hty) as (nm1 & Hm1 & Hs & Hrun).
    destruct (attached_heap h m x nx nm1 (SubMenu_ nm ++ [Some x]) Hx Hm1)
      as ((nm' & Hm' & Hs') & (nx' & Hx' & Hp') & Hframe).
    eexists _, nm', nx'. split; [exact Hrun|].
    repeat split; try done. rewrite Hs'. apply last_snoc.
  - intros Hty x. by eapply Append_not_submenu.
Qed.

(** C6. On a receiver [m] of Submenu kind, [m.Prepend(x)] returns true, leaves
    [x] with parent [m] and the children of [m] equal to [x] followed by the
    former children (so [x] is at index 0 and the former children keep their
    order), every other struct being untouched; on a receiver of any other
    kind it returns false and the heap, hence [m] and [x], is unchanged. *)
Theorem Prepend_correct (h : heap) (m : loc) (nm : MenuItem) :
  h !! m = Some nm →
  (Type__ nm = SubmenuType → ∀ x nx, h !! x = Some nx →
     ∃ h' nm' nx',
       Prepend (Some m) (Some x) h = Ok true h'
       ∧ h' !! m = Some nm' ∧ h' !! x = Some nx'
       ∧ parent nx' = Some m
       ∧ SubMenu_ nm' = Some x :: SubMenu_ nm
       ∧ SubMenu_ nm' !! 0 = Some (Some x)
       ∧ (∀ l, l ≠ m → l ≠ x → h' !! l = h !! l))
  ∧ (Type__ nm ≠ SubmenuType → ∀ x, Prepend (Some m) x h = Ok false h).
Proof.
  intros Hm. split.
  - intros Hty x nx Hx.
    destruct (Prepend_submenu h m nm x nx Hm Hx Hty) as (nm1 & Hm1 & Hs & Hrun).
    destruct (attached_heap h m x nx nm1 (Some x :: SubMenu_ nm) Hx Hm1)
      as ((nm' & Hm' & Hs') & (nx' & Hx' & Hp') & Hframe).
    eexists _, nm', nx'. split; [exact Hrun|].
    repeat split; try done. by rewrite Hs'.
  - intros Hty x. by eapply Prepend_not_submenu.
Qed.

(** ** Slices *)

Lemma slice_prefix (s : list ptr) (i : nat) (h : heap) :
  i ≤ length s → slice s 0 (Z.of_nat i) h = Ok (take i s) h.
Proof.
  intros Hi. unfold slice. rewrite bool_decide_eq_true_2 by lia.
  unfold ret. by rewrite Nat2Z.id, Nat.sub_0_r.
Qed.

Lemma slice_suffix (s : list ptr) (i : nat) (h : heap) :
  i ≤ length s → slice s (Z.of_nat i) (len s) h = Ok (drop i s) h.
Proof.
  intros Hi. unfold slice, len. rewrite bool_decide_eq_true_2 by lia.
  unfold ret. rewrite !Nat2Z.id. by rewrite take_ge by (rewrite length_drop; lia).
Qed.

Lemma store_index_ok (s : list ptr) (i : nat) (x : ptr) (h : heap) :
  i < length s → store_index s (Z.of_nat i) x h = Ok (<[i := x]> s) h.
Proof.
  intros Hi. unfold store_index. rewrite bool_decide_eq_true_2 by lia.
  unfold ret. by rewrite Nat2Z.id.
Qed.

(** Opening a gap at [i] by copying the tail one place up, then storing [x]
    in the gap, inserts [x] before the former element [i]. *)
Lemma open_gap_store (s : list ptr) (i : nat) (x : ptr) :
  i < length s →
  <[i := x]> (take (S i) s ++ drop i s) = take i s ++ x :: drop i s.
Proof.
  revert i. induction s as [|a s IH]; intros i Hi; simpl in *; [lia|].
  destruct i as [|i]; simpl.
  - done.
  - f_equal. apply IH. lia.
Qed.

(** ** [insertItemAtIndex] *)

Lemma insertItemAtIndex_out_of_bounds (h : heap) m nm index x :
  h !! m = Some nm → (index > len (SubMenu_ nm))%Z →
  insertItemAtIndex (Some m) index x h = Ok false h.
Proof.
  intros Hm Hi. unfold insertItemAtIndex.
  rewrite (bind_ok _ _ _ _ _ (load_ok _ _ _ Hm)).
  by rewrite bool_decide_eq_true_2.
Qed.

Lemma insertItemAtIndex_in_bounds (h : heap) m nm x nx (i : nat) :
  h !! m = Some nm → h !! x = Some nx → i ≤ length (SubMenu_ nm) →
  ∃ nm1, <[x := with_parent (Some m) nx]> h !! m = Some nm1
    ∧ insertItemAtIndex (Some m) (Z.of_nat i) (Some x) h =
      Ok true (<[m := with_SubMenu (take i (SubMenu_ nm) ++ Some x :: drop i (SubMenu_ nm)) nm1]>
                 (<[x := with_parent (Some m) nx]> h)).
Proof.
  intros Hm Hx Hi.
  destruct (lookup_after_set_parent h m x nm nx (Some m) Hm Hx)
    as (nm1 & Hm1 & Hs & _).
  exists nm1. split; [done|]. unfold insertItemAtIndex.
  rewrite (bind_ok _ _ _ _ _ (load_ok _ _ _ Hm)).
  rewrite bool_decide_eq_false_2 by (unfold len; lia).
  rewrite (bind_ok _ _ _ _ _ (set_parent_ok _ _ _ _ Hx)).
  rewrite (bind_ok _ _ _ _ _ (load_ok _ _ _ Hm1)).
  rewrite Hs. case_bool_decide as Hlast.
  - rewrite (bind_ok _ _ _ _ _ (set_SubMenu_ok _ _ _ _ Hm1)).
    assert (i = length (SubMenu_ nm)) as -> by (unfold len in Hlast; lia).
    by rewrite take_ge, drop_ge by lia.
  - assert (i < length (SubMenu_ nm)) as Hlt by (unfold len in Hlast; lia).
    replace (Z.of_nat i + 1)%Z with (Z.of_nat (S i)) by lia.
    rewrite (bind_ok _ _ _ _ _ (slice_prefix _ (S i) _ Hlt)).
    rewrite (bind_ok _ _ _ _ _ (slice_suffix _ i _ Hi)).
    rewrite (bind_ok _ _ _ _ _ (set_SubMenu_ok _ _ _ _ Hm1)).
    rewrite (bind_ok _ _ _ _ _ (load_ok _ _ _ (lookup_insert_eq _ _ _))).
    simpl SubMenu_.
    assert (i < length (take (S i) (SubMenu_ nm) ++ drop i (SubMenu_ nm))) as Hgap
      by (rewrite length_app, length_take, length_drop; lia).
    rewrite (bind_ok _ _ _ _ _ (store_index_ok _ i _ _ Hgap)).
    rewrite (bind_ok _ _ _ _ _ (set_SubMenu_ok _ _ _ _ (lookup_insert_eq _ _ _))).
    rewrite insert_insert_eq. unfold ret. do 2 f_equal.
    unfold with_SubMenu; simpl. f_equal. by apply open_gap_store.
Qed.

(** C9. Whatever the kind of [m], in particular on a Submenu node: with the
    index equal to the number of children, [insertItemAtIndex] returns true
    and leaves the children of [m] equal to the former children followed by
    the item, whose parent is then [m]; with an index greater than the
    number of children it returns false and the heap is unchanged, so
    neither the children of [m] nor any field of the item is written. *)
Theorem insertItemAtIndex_bounds (h : heap) (m : loc) (nm : MenuItem) :
  h !! m = Some nm →
  (∀ x nx, h !! x = Some nx →
     ∃ h' nm' nx',
       insertItemAtIndex (Some m) (len (SubMenu_ nm)) (Some x) h = Ok true h'
       ∧ h' !! m = Some nm' ∧ h' !! x = Some nx'
       ∧ SubMenu_ nm' = SubMenu_ nm ++ [Some x]
       ∧ parent nx' = Some m)
  ∧ (∀ index x, (index > len (SubMenu_ nm))%Z →
       insertItemAtIndex (Some m) index x h = Ok false h).
Proof.
  intros Hm. split.
  - intros x nx Hx.
    destruct (insertItemAtIndex_in_bounds h m nm x nx (length (SubMenu_ nm)) Hm Hx)
      as (nm1 & Hm1 & Hrun); [done|].
    rewrite take_ge, drop_ge in Hrun by lia.
    destruct (attached_heap h m x nx nm1 (SubMenu_ nm ++ [Some x]) Hx Hm1)
      as ((nm' & Hm' & Hs') & (nx' & Hx' & Hp') & _).
    eexists _, nm', nx'. split; [exact Hrun|]. by repeat split.
  - intros index x Hi. by eapply insertItemAtIndex_out_of_bounds.
Qed.

(** ** [getItemIndex] *)

Lemma getItemIndex_range_cases (target : ptr) (k : nat) (items : list ptr) :
  (getItemIndex_range target (Z.of_nat k) items = (-1)%Z ∧ target ∉ items)
  ∨ (∃ i, getItemIndex_range target (Z.of_nat k) items = Z.of_nat (k + i)
          ∧ items !! i = Some target
          ∧ ∀ j, j < i → items !! j ≠ Some target).
Proof.
  revert k. induction items as [|item rest IH]; intros k; simpl.
  - left. split; [done|]. apply not_elem_of_nil.
  - case_bool_decide as Heq.
    + right. exists 0. rewrite Nat.add_0_r. subst item.
      split; [done|]. split; [done|]. intros j Hj. lia.
    + replace (Z.of_nat k + 1)%Z with (Z.of_nat (S k)) by lia.
      destruct (IH (S k)) as [[Hr Hnot]|(i & Hr & Hi & Hfirst)].
      * left. split; [done|]. rewrite not_elem_of_cons. done.
      * right. exists (S i). rewrite Hr. split; [f_equal; lia|].
        split; [done|]. intros [|j] Hj; simpl.
        -- congruence.
        -- apply Hfirst. lia.
Qed.

Lemma getItemIndex_range_first (target : ptr) (items : list ptr) (i : nat) :
  items !! i = Some target →
  (∀ j, j < i → items !! j ≠ Some target) →
  getItemIndex_range target 0 items = Z.of_nat i.
Proof.
  intros Hi Hfirst.
  destruct (getItemIndex_range_cases target 0 items)
    as [[_ Hnot]|(i' & Hr & Hi' & Hfirst')].
  - exfalso. apply Hnot. by eapply list_elem_of_lookup_2.
  - change (Z.of_nat 0) with 0%Z in Hr. rewrite Hr. f_equal. simpl.
    destruct (Nat.lt_trichotomy i i') as [Hlt|[->|Hlt]]; [|done|].
    + by destruct (Hfirst' i Hlt).
    + by destruct (Hfirst i' Hlt).
Qed.

Lemma getItemIndex_ok (h : heap) m nm target :
  h !! m = Some nm → Type__ nm = SubmenuType →
  getItemIndex (Some m) target h = Ok (getItemIndex_range target 0 (SubMenu_ nm)) h.
Proof.
  intros Hm Hty. unfold getItemIndex.
  rewrite (bind_ok _ _ _ _ _ (isSubMenu_ok _ _ _ Hm)).
  rewrite bool_decide_eq_true_2 by done. simpl.
  by rewrite (bind_ok _ _ _ _ _ (load_ok _ _ _ Hm)).
Qed.

(** ** [InsertAfter] and [InsertBefore] *)

(** The two insertions differ by the offset added to the index found. *)
Lemma insertNewItem_found (h : heap) p np t x nx (i : nat) :
  h !! p = Some np → Type__ np = SubmenuType →
  SubMenu_ np !! i = Some t →
  (∀ j, j < i → SubMenu_ np !! j ≠ Some t) →
  h !! x = Some nx →
  ∃ np1, <[x := with_parent (Some p) nx]> h !! p = Some np1
    ∧ insertNewItemAfterGivenItem (Some p) t (Some x) h =
      Ok true (<[p := with_SubMenu (take (S i) (SubMenu_ np) ++ Some x :: drop (S i) (SubMenu_ np)) np1]>
                 (<[x := with_parent (Some p) nx]> h))
    ∧ insertNewItemBeforeGivenItem (Some p) t (Some x) h =
      Ok true (<[p := with_SubMenu (take i (SubMenu_ np) ++ Some x :: drop i (SubMenu_ np)) np1]>
                 (<[x := with_parent (Some p) nx]> h)).
Proof.
  intros Hp Hty Hi Hfirst Hx.
  pose proof (lookup_lt_Some _ _ _ Hi) as Hlt.
  destruct (insertItemAtIndex_in_bounds h p np x nx (S i) Hp Hx) as (np1 & Hp1 & Hafter); [lia|].
  destruct (insertItemAtIndex_in_bounds h p np x nx i Hp Hx) as (np1' & Hp1' & Hbefore); [lia|].
  assert (np1' = np1) as -> by congruence.
  exists np1. split; [done|].
  unfold insertNewItemAfterGivenItem, insertNewItemBeforeGivenItem.
  rewrite !(bind_ok _ _ _ _ _ (isSubMenu_ok _ _ _ Hp)).
  rewrite bool_decide_eq_true_2 by done. simpl.
  rewrite !(bind_ok _ _ _ _ _ (getItemIndex_ok _ _ _ _ Hp Hty)).
  rewrite (getItemIndex_range_first _ _ _ Hi Hfirst).
  rewrite bool_decide_eq_false_2 by lia.
  replace (Z.of_nat i + 1)%Z with (Z.of_nat (S i)) by lia.
  by rewrite Hafter, Hbefore.
Qed.

Lemma Insert_root (h : heap) t nt x :
  h !! t = Some nt → parent nt = None →
  InsertAfter (Some t) x h = Ok false h ∧ InsertBefore (Some t) x h = Ok false h.
Proof.
  intros Ht Hroot. unfold InsertAfter, InsertBefore.
  rewrite !(bind_ok _ _ _ _ _ (load_ok _ _ _ Ht)).
  by rewrite bool_decide_eq_true_2.
Qed.

Lemma Insert_child (h : heap) t nt p x :
  h !! t = Some nt → parent nt = Some p →
  InsertAfter (Some t) x h = insertNewItemAfterGivenItem (Some p) (Some t) x h
  ∧ InsertBefore (Some t) x h = insertNewItemBeforeGivenItem (Some p) (Some t) x h.
Proof.
  intros Ht Hp. unfold InsertAfter, InsertBefore.
  rewrite !(bind_ok _ _ _ _ _ (load_ok _ _ _ Ht)).
  rewrite bool_decide_eq_false_2 by (unfold nil_ptr; congruence).
  by rewrite Hp.
Qed.

(** The target [t], a child of [p], still has parent [p] once [x] was
    attached to [p]: [t] may be [x], or [p] itself. *)
Lemma target_keeps_parent (h : heap) p t nt x nx np1 s :
  h !! t = Some nt → parent nt = Some p → h !! x = Some nx →
  <[x := with_parent (Some p) nx]> h !! p = Some np1 →
  ∃ nt', <[p := with_SubMenu s np1]> (<[x := with_parent (Some p) nx]> h) !! t = Some nt'
         ∧ parent nt' = Some p.
Proof.
  intros Ht Hpar Hx Hp1.
  destruct (decide (t = p)) as [->|Htp].
  - eexists. rewrite lookup_insert_eq. split; [done|]. simpl.
    destruct (decide (x = p)) as [->|Hxp].
    + rewrite lookup_insert_eq in Hp1. by injection Hp1 as <-.
    + rewrite lookup_insert_ne in Hp1 by done. congruence.
  - rewrite lookup_insert_ne by done.
    destruct (decide (t = x)) as [->|Htx].
    + eexists. by rewrite lookup_insert_eq.
    + exists nt. by rewrite lookup_insert_ne.
Qed.

(** C3, as amended. Let [t] have parent [p], a struct of Submenu kind in
    whose children [i] is the first index holding [t]. Then [t.InsertAfter(x)]
    returns true, [x] has the parent of [t], namely [p], and the children of
    [p] are the former ones with [x] inserted at index [i+1], in their former
    order.  When [t] has no parent, [t.InsertAfter(x)] returns false and the
    heap is unchanged. *)
Theorem InsertAfter_correct (h : heap) (t : loc) (nt : MenuItem) :
  h !! t = Some nt →
  (∀ p np i x nx,
     parent nt = Some p → h !! p = Some np → Type__ np = SubmenuType →
     SubMenu_ np !! i = Some (Some t) →
     (∀ j, j < i → SubMenu_ np !! j ≠ Some (Some t)) →
     h !! x = Some nx →
     ∃ h' np' nx' nt',
       InsertAfter (Some t) (Some x) h = Ok true h'
       ∧ h' !! p = Some np' ∧ h' !! x = Some nx' ∧ h' !! t = Some nt'
       ∧ parent nx' = parent nt' ∧ parent nt' = Some p
       ∧ SubMenu_ np' !! S i = Some (Some x)
       ∧ SubMenu_ np' = take (S i) (SubMenu_ np) ++ Some x :: drop (S i) (SubMenu_ np))
  ∧ (parent nt = None → ∀ x, InsertAfter (Some t) x h = Ok false h).
Proof.
  intros Ht. split.
  - intros p np i x nx Hpar Hp Hty Hi Hfirst Hx.
    destruct (insertNewItem_found h p np (Some t) x nx i Hp Hty Hi Hfirst Hx)
      as (np1 & Hp1 & Hrun & _).
    destruct (Insert_child h t nt p (Some x) Ht Hpar) as [-> _].
    set (s := take (S i) (SubMenu_ np) ++ Some x :: drop (S i) (SubMenu_ np)) in *.
    destruct (attached_heap h p x nx np1 s Hx Hp1)
      as ((np' & Hp' & Hs') & (nx' & Hx' & Hpx') & Hframe).
    destruct (target_keeps_parent h p t nt x nx np1 s Ht Hpar Hx Hp1)
      as (nt' & Ht' & Hpt').
    eexists _, np', nx', nt'. split; [exact Hrun|].
    repeat split; try done; [congruence|].
    rewrite Hs'. subst s. pose proof (lookup_lt_Some _ _ _ Hi).
    rewrite lookup_app_r by (rewrite length_take; lia).
    rewrite length_take. by replace (S i - S i `min` length (SubMenu_ np)) with 0 by lia.
  - intros Hroot x. by apply (Insert_root h t nt x).
Qed.

(** C4, as amended. Let [t] have parent [p], a struct of Submenu kind in
    whose children [i] is the first index holding [t]. Then
    [t.InsertBefore(x)] returns true, [x] has the parent of [t], namely [p],
    and the children of [p] are the former ones with [x] inserted at index
    [i], so that [t] is at [i+1] and every later sibling one place further.
    When [t] has no parent, [t.InsertBefore(x)] returns false and the heap is
    unchanged. *)
Theorem InsertBefore_correct (h : heap) (t : loc) (nt : MenuItem) :
  h !! t = Some nt →
  (∀ p np i x nx,
     parent nt = Some p → h !! p = Some np → Type__ np = SubmenuType →
     SubMenu_ np !! i = Some (Some t) →
     (∀ j, j < i → SubMenu_ np !! j ≠ Some (Some t)) →
     h !! x = Some nx →
     ∃ h' np' nx' nt',
       InsertBefore (Some t) (Some x) h = Ok true h'
       ∧ h' !! p = Some np' ∧ h' !! x = Some nx' ∧ h' !! t = Some nt'
       ∧ parent nx' = parent nt' ∧ parent nt' = Some p
       ∧ SubMenu_ np' !! i = Some (Some x)
       ∧ SubMenu_ np' !! S i = Some (Some t)
       ∧ (∀ j, i ≤ j → SubMenu_ np' !! S j = SubMenu_ np !! j)
       ∧ (∀ j, j < i → SubMenu_ np' !! j = SubMenu_ np !! j)
       ∧ SubMenu_ np' = take i (SubMenu_ np) ++ Some x :: drop i (SubMenu_ np))
  ∧ (parent nt = None → ∀ x, InsertBefore (Some t) x h = Ok false h).
Proof.
  intros Ht. split.
  - intros p np i x nx Hpar Hp Hty Hi Hfirst Hx.
    destruct (insertNewItem_found h p np (Some t) x nx i Hp Hty Hi Hfirst Hx)
      as (np1 & Hp1 & _ & Hrun).
    destruct (Insert_child h t nt p (Some x) Ht Hpar) as [_ ->].
    set (s := take i (SubMenu_ np) ++ Some x :: drop i (SubMenu_ np)) in *.
    destruct (attached_heap h p x nx np1 s Hx Hp1)
      as ((np' & Hp' & Hs') & (nx' & Hx' & Hpx') & Hframe).
    destruct (target_keeps_parent h p t nt x nx np1 s Ht Hpar Hx Hp1)
      as (nt' & Ht' & Hpt').
    pose proof (lookup_lt_Some _ _ _ Hi) as Hlt.
    assert (∀ j, i ≤ j → s !! S j = SubMenu_ np !! j) as Hshift.
    { intros j Hj. subst s. rewrite lookup_app_r by (rewrite length_take; lia).
      rewrite length_take. replace (S j - i `min` length (SubMenu_ np)) with (S (j - i)) by lia.
      simpl. rewrite lookup_drop. f_equal. lia. }
    eexists _, np', nx', nt'. split; [exact Hrun|].
    rewrite Hs'.
    split; [done|]. split; [done|]. split; [done|].
    split; [congruence|]. split; [done|].
    split.
    { subst s. rewrite lookup_app_r by (rewrite length_take; lia).
      rewrite length_take. by replace (i - i `min` length (SubMenu_ np)) with 0 by lia. }
    split; [by rewrite Hshift|]. split; [done|].
    split; [|done].
    intros j Hj. subst s. rewrite lookup_app_l by (rewrite length_take; lia).
    by rewrite lookup_take_lt.
  - intros Hroot x. by apply (Insert_root h t nt x).
Qed.

(** C3 as first stated fails where [t] occurs twice among the children of its
    parent: with children [[t; u; t]], [t] occurs at index 2, and
    [t.InsertAfter(x)] puts [x] at index 1, after the first occurrence;
    index 3 then holds [t]. *)
Lemma InsertAfter_later_occurrence :
  twice_heap !! 2%positive = Some (item "t" TextType [] (Some 1%positive))
  ∧ twice_heap !! 1%positive =
      Some (item "p" SubmenuType [Some 2%positive; Some 3%positive; Some 2%positive] None)
  ∧ [Some 2%positive; Some 3%positive; Some 2%positive] !! 2 = Some (Some 2%positive)
  ∧ ∃ h' np',
      InsertAfter (Some 2%positive) (Some 4%positive) twice_heap = Ok true h'
      ∧ h' !! 1%positive = Some np'
      ∧ SubMenu_ np' = [Some 2%positive; Some 4%positive; Some 3%positive; Some 2%positive]
      ∧ SubMenu_ np' !! 3 ≠ Some (Some 4%positive).
Proof.
  split; [reflexivity|]. split; [reflexivity|]. split; [reflexivity|].
  eexists _, _. split; [vm_compute; reflexivity|].
  split; [vm_compute; reflexivity|]. split; [reflexivity|].
  simpl. discriminate.
Qed.

(** [B.InsertAfter(E)] on the scenario tree gives [A] the children
    [[B; E; C]]; on the root [A] it returns false. *)
Lemma InsertAfter_correct_witness :
  (∃ h' np', InsertAfter (Some 2%positive) (Some 5%positive) scenario_heap = Ok true h'
             ∧ h' !! 1%positive = Some np'
             ∧ SubMenu_ np' = [Some 2%positive; Some 5%positive; Some 3%positive])
  ∧ InsertAfter (Some 1%positive) (Some 5%positive) scenario_heap = Ok false scenario_heap.
Proof.
  split.
  - destruct (InsertAfter_correct scenario_heap 2%positive _ eq_refl) as [H _].
    destruct (H 1%positive _ 0 5%positive _ eq_refl eq_refl eq_refl eq_refl
                ltac:(intros; lia) eq_refl)
      as (h' & np' & nx' & nt' & Hrun & Hp & _ & _ & _ & _ & _ & Hs).
    exists h', np'. split; [exact Hrun|]. split; [exact Hp|]. exact Hs.
  - destruct (InsertAfter_correct scenario_heap 1%positive _ eq_refl) as [_ H].
    apply H. reflexivity.
Defined.

(** C4 as first stated fails where [t] occurs twice among the children of its
    parent: with children [[t; u; t]], [t] occurs at index 2, and
    [t.InsertBefore(x)] puts [x] at index 0, before the first occurrence;
    index 2 then holds [u]. *)
Lemma InsertBefore_later_occurrence :
  twice_heap !! 2%positive = Some (item "t" TextType [] (Some 1%positive))
  ∧ twice_heap !! 1%positive =
      Some (item "p" SubmenuType [Some 2%positive; Some 3%positive; Some 2%positive] None)
  ∧ [Some 2%positive; Some 3%positive; Some 2%positive] !! 2 = Some (Some 2%positive)
  ∧ ∃ h' np',
      InsertBefore (Some 2%positive) (Some 4%positive) twice_heap = Ok true h'
      ∧ h' !! 1%positive = Some np'
      ∧ SubMenu_ np' = [Some 4%positive; Some 2%positive; Some 3%positive; Some 2%positive]
      ∧ SubMenu_ np' !! 2 ≠ Some (Some 4%positive).
Proof.
  split; [reflexivity|]. split; [reflexivity|]. split; [reflexivity|].
  eexists _, _. split; [vm_compute; reflexivity|].
  split; [vm_compute; reflexivity|]. split; [reflexivity|].
  simpl. discriminate.
Qed.

(** [C.InsertBefore(E)] on the scenario tree gives [A] the children
    [[B; E; C]]; on the root [A] it returns false. *)
Lemma InsertBefore_correct_witness :
  (∃ h' np', InsertBefore (Some 3%positive) (Some 5%positive) scenario_heap = Ok true h'
             ∧ h' !! 1%positive = Some np'
             ∧ SubMenu_ np' = [Some 2%positive; Some 5%positive; Some 3%positive])
  ∧ InsertBefore (Some 1%positive) (Some 5%positive) scenario_heap = Ok false scenario_heap.
Proof.
  split.
  - destruct (InsertBefore_correct scenario_heap 3%positive _ eq_refl) as [H _].
    destruct (H 1%positive _ 1 5%positive _ eq_refl eq_refl eq_refl eq_refl
                ltac:(intros [|j] Hj; [simpl; discriminate|lia]) eq_refl)
      as (h' & np' & nx' & nt' & Hrun & Hp & _ & _ & _ & _ & _ & _ & _ & _ & Hs).
    exists h', np'. split; [exact Hrun|]. split; [exact Hp|]. exact Hs.
  - destruct (InsertBefore_correct scenario_heap 1%positive _ eq_refl) as [_ H].
    apply H. reflexivity.
Defined.

(** [C.Append(E)] on the scenario tree gives [C] the children [[D; E]];
    on the Text item [B] it returns false. *)
Lemma Append_correct_witness :
  (∃ h' np', Append (Some 3%positive) (Some 5%positive) scenario_heap = Ok true h'
             ∧ h' !! 3%positive = Some np'
             ∧ SubMenu_ np' = [Some 4%positive; Some 5%positive])
  ∧ Append (Some 2%positive) (Some 5%positive) scenario_heap = Ok false scenario_heap.
Proof.
  split.
  - destruct (Append_correct scenario_heap 3%positive _ eq_refl) as [H _].
    destruct (H eq_refl 5%positive _ eq_refl)
      as (h' & np' & nx' & Hrun & Hp & _ & _ & Hs & _).
    exists h', np'. split; [exact Hrun|]. split; [exact Hp|]. exact Hs.
  - destruct (Append_correct scenario_heap 2%positive _ eq_refl) as [_ H].
    apply H. simpl. discriminate.
Defined.

(** [C.Prepend(E)] on the scenario tree gives [C] the children [[E; D]];
    on the Text item [B] it returns false. *)
Lemma Prepend_correct_witness :
  (∃ h' np', Prepend (Some 3%positive) (Some 5%positive) scenario_heap = Ok true h'
             ∧ h' !! 3%positive = Some np'
             ∧ SubMenu_ np' = [Some 5%positive; Some 4%positive])
  ∧ Prepend (Some 2%positive) (Some 5%positive) scenario_heap = Ok false scenario_heap.
Proof.
  split.
  - destruct (Prepend_correct scenario_heap 3%positive _ eq_refl) as [H _].
    destruct (H eq_refl 5%positive _ eq_refl)
      as (h' & np' & nx' & Hrun & Hp & _ & _ & Hs & _).
    exists h', np'. split; [exact Hrun|]. split; [exact Hp|]. exact Hs.
  - destruct (Prepend_correct scenario_heap 2%positive _ eq_refl) as [_ H].
    apply H. simpl. discriminate.
Defined.

(** On [A], with two children: index 2 appends, index 3 is refused. *)
Lemma insertItemAtIndex_bounds_witness :
  (∃ h' np', insertItemAtIndex (Some 1%positive) 2 (Some 5%positive) scenario_heap = Ok true h'
             ∧ h' !! 1%positive = Some np'
             ∧ SubMenu_ np' = [Some 2%positive; Some 3%positive; Some 5%positive])
  ∧ insertItemAtIndex (Some 1%positive) 3 (Some 5%positive) scenario_heap = Ok false scenario_heap.
Proof.
  split.
  - destruct (insertItemAtIndex_bounds scenario_heap 1%positive _ eq_refl) as [H _].
    destruct (H 5%positive _ eq_refl) as (h' & np' & nx' & Hrun & Hp & _ & Hs & _).
    exists h', np'. split; [exact Hrun|]. split; [exact Hp|]. exact Hs.
  - destruct (insertItemAtIndex_bounds scenario_heap 1%positive _ eq_refl) as [_ H].
    apply H. reflexivity.
Defined.

(** ** The submenu constructors *)

Lemma allocated_insert (h : heap) l n p :
  allocated h p → allocated (<[l := n]> h) p.
Proof.
  intros (l' & -> & Hl'). exists l'. split; [done|].
  rewrite lookup_insert. by case_decide.
Qed.

Lemma fix_up_parents_ok (result : ptr) (items : list ptr) (h : heap) :
  Forall (allocated h) items →
  ∃ h', fix_up_parents result items h = Ok tt h'
        ∧ ∀ l, h' !! l = if decide (Some l ∈ items)
                         then with_parent result <$> h !! l
                         else h !! l.
Proof.
  revert h. induction items as [|it rest IH]; intros h Hall.
  - exists h. split; [done|]. intros l. case_decide as Hin; [|done].
    by apply elem_of_nil in Hin.
  - apply Forall_cons in Hall as [(l0 & -> & [n0 Hl0]) Hrest].
    cbn [fix_up_parents].
    rewrite (bind_ok _ _ _ _ _ (set_parent_ok _ _ _ _ Hl0)).
    destruct (IH (<[l0 := with_parent result n0]> h)) as (h' & Hrun & Hlook).
    { eapply Forall_impl; [exact Hrest|]. intros p. apply allocated_insert. }
    exists h'. split; [done|]. intros l. rewrite Hlook.
    destruct (decide (l = l0)) as [->|Hne].
    + rewrite lookup_insert_eq, Hl0.
      destruct (decide (Some l0 ∈ Some l0 :: rest)) as [_|Hnin].
      * by case_decide.
      * destruct Hnin. apply list_elem_of_here.
    + rewrite lookup_insert_ne by done.
      destruct (decide (Some l ∈ rest)) as [Hin|Hnin];
        destruct (decide (Some l ∈ Some l0 :: rest)) as [Hin'|Hnin']; try done.
      * destruct Hnin'. by apply list_elem_of_further.
      * apply elem_of_cons in Hin' as [?|?]; [congruence|done].
Qed.

Lemma construct_ok (n0 : MenuItem) (items : list ptr) (h : heap) :
  Forall (allocated h) items →
  ∃ r h',
    (let! result := alloc n0 in
     exec! fix_up_parents result items in
     ret result) h = Ok (Some r) h'
    ∧ h !! r = None ∧ h' !! r = Some n0
    ∧ (∀ l, Some l ∈ items → Parent (Some l) h' = Ok (Some r) h')
    ∧ (∀ l, l ≠ r → Some l ∉ items → h' !! l = h !! l).
Proof.
  intros Hall. set (r := fresh (dom h)).
  assert (h !! r = None) as Hr by (apply not_elem_of_dom, is_fresh).
  destruct (fix_up_parents_ok (Some r) items (<[r := n0]> h)) as (h' & Hrun & Hlook).
  { eapply Forall_impl; [exact Hall|]. intros p. apply allocated_insert. }
  assert (Some r ∉ items) as Hnew.
  { intros Hin. rewrite Forall_forall in Hall.
    destruct (Hall _ Hin) as (l & [= <-] & [n Hn]). congruence. }
  exists r, h'. split; [|split; [done|split; [|split]]].
  - unfold bind at 1. unfold alloc. fold r.
    by rewrite (bind_ok _ _ _ _ _ Hrun).
  - rewrite Hlook, decide_False by done. apply lookup_insert_eq.
  - intros l Hin. rewrite Forall_forall in Hall.
    destruct (Hall _ Hin) as (l' & [= <-] & [n Hn]).
    assert (l ≠ r) by congruence.
    assert (h' !! l = Some (with_parent (Some r) n)) as Hl.
    { rewrite Hlook, decide_True by done. rewrite lookup_insert_ne by done.
      by rewrite Hn. }
    unfold Parent. by rewrite (bind_ok _ _ _ _ _ (load_ok _ _ _ Hl)).
  - intros l Hlr Hnin. rewrite Hlook, decide_False by done.
    by rewrite lookup_insert_ne.
Qed.

(** C8. Given a list of items that are all structs of the heap,
    [SubMenu(label, items)] and [SubMenuWithID(label, id, items)] return a
    new struct of Submenu kind, with the given label (and id), no parent, and
    exactly [items] as children, in the heap where [Parent()] of every one of
    the items is the new struct; the other structs are unchanged. *)
Theorem SubMenu_constructors_fix_parents (h : heap) (label id : string) (items : list ptr) :
  Forall (allocated h) items →
  (∃ r h' nr,
     SubMenu label items h = Ok (Some r) h'
     ∧ h !! r = None ∧ h' !! r = Some nr
     ∧ Type__ nr = SubmenuType ∧ SubMenu_ nr = items
     ∧ Label nr = label ∧ parent nr = None
     ∧ (∀ l, Some l ∈ items → Parent (Some l) h' = Ok (Some r) h')
     ∧ (∀ l, l ≠ r → Some l ∉ items → h' !! l = h !! l))
  ∧ (∃ r h' nr,
     SubMenuWithID label id items h = Ok (Some r) h'
     ∧ h !! r = None ∧ h' !! r = Some nr
     ∧ Type__ nr = SubmenuType ∧ SubMenu_ nr = items
     ∧ Label nr = label ∧ ID nr = id ∧ parent nr = None
     ∧ (∀ l, Some l ∈ items → Parent (Some l) h' = Ok (Some r) h')
     ∧ (∀ l, l ≠ r → Some l ∉ items → h' !! l = h !! l)).
Proof.
  intros Hall. split.
  - destruct (construct_ok
      (mkMenuItem "" label 0%Z None SubmenuType false false false items nil_ptr)
      items h Hall) as (r & h' & Hrun & Hfresh & Hr & Hpar & Hframe).
    exists r, h'. eexists. split; [exact Hrun|]. by repeat split.
  - destruct (construct_ok
      (mkMenuItem id label 0%Z None SubmenuType false false false items nil_ptr)
      items h Hall) as (r & h' & Hrun & Hfresh & Hr & Hpar & Hframe).
    exists r, h'. eexists. split; [exact Hrun|]. by repeat split.
Qed.

(** A submenu built over the detached item [E] and the former root [A]. *)
Lemma SubMenu_constructors_fix_parents_witness :
  ∃ r h', SubMenu "more" [Some 5%positive; Some 1%positive] scenario_heap = Ok (Some r) h'
          ∧ Parent (Some 1%positive) h' = Ok (Some r) h'
          ∧ Parent (Some 5%positive) h' = Ok (Some r) h'.
Proof.
  destruct (SubMenu_constructors_fix_parents scenario_heap "more" ""
              [Some 5%positive; Some 1%positive]) as [(r & h' & nr & Hrun & _ & _ & _ & _ & _ & _ & Hpar & _) _].
  - repeat apply Forall_cons_2; [| |apply Forall_nil_2];
      (eexists; split; [reflexivity|]; eexists; reflexivity).
  - exists r, h'. split; [exact Hrun|]. split; apply Hpar.
    + apply list_elem_of_further, list_elem_of_here.
    + apply list_elem_of_here.
Defined.

(** ** Unfoldings *)

Lemma tree_ind' (P : tree → Prop) :
  (∀ l n kids, Forall P kids → P (Node l n kids)) → ∀ t, P t.
Proof.
  intros Hnode. fix IH 1. intros [l n kids]. apply Hnode.
  induction kids as [|k kids IHkids]; constructor; [apply IH|exact IHkids].
Qed.

Lemma shape_root (h : heap) t : shape h t → h !! root t = Some (content t).
Proof. by intros [l n kids Hl _ _]. Qed.

Lemma height_kid (k : tree) (kids : list tree) :
  k ∈ kids → height k ≤ max_list (map height kids).
Proof.
  intros Hin. apply max_list_elem_of_le, list_elem_of_fmap. by exists k.
Qed.

Lemma find_app_first {A} (f : A → bool) (l1 l2 : list A) :
  find f (l1 ++ l2) = match find f l1 with Some a => Some a | None => find f l2 end.
Proof. induction l1 as [|a l1 IH]; simpl; [done|]. by destruct (f a). Qed.

(** ** [getByID] *)

Lemma getByID_range_spec (rec : ptr → M ptr) (id : string) (h : heap) (ks : list tree) :
  Forall (λ k, rec (Some (root k)) h = Ok (fst <$> find (has_id id) (preorder k)) h) ks →
  getByID_range rec (map (λ k, Some (root k)) ks) h =
  Ok (fst <$> find (has_id id) (concat (map preorder ks))) h.
Proof.
  induction 1 as [|k ks Hk _ IH]; [done|].
  cbn [map concat getByID_range]. rewrite (bind_ok _ _ _ _ _ Hk).
  rewrite find_app_first. destruct (find (has_id id) (preorder k)) as [e|]; [done|].
  exact IH.
Qed.

Lemma getByID_spec (h : heap) (id : string) (t : tree) :
  shape h t → ∀ fuel, height t ≤ fuel →
  getByID fuel (Some (root t)) id h = Ok (fst <$> find (has_id id) (preorder t)) h.
Proof.
  induction t as [l n kids IH] using tree_ind'.
  intros Hshape fuel Hfuel. inversion Hshape as [? ? ? Hl Hkids Hsub]; subst.
  destruct fuel as [|fuel]; [simpl in Hfuel; lia|].
  cbn [getByID root preorder find]. rewrite (bind_ok _ _ _ _ _ (load_ok _ _ _ Hl)).
  unfold has_id at 1. cbn [snd]. case_bool_decide as Hid; [done|].
  rewrite Hkids. apply getByID_range_spec.
  rewrite Forall_forall in IH, Hsub |- *. intros k Hk. apply IH; [done|by apply Hsub|].
  pose proof (height_kid k kids Hk). simpl in Hfuel. lia.
Qed.

Lemma find_first_index {A} (f : A → bool) (l : list A) :
  match find f l with
  | Some a => ∃ i, l !! i = Some a ∧ f a = true
                   ∧ ∀ j b, j < i → l !! j = Some b → f b = false
  | None => ∀ b, b ∈ l → f b = false
  end.
Proof.
  induction l as [|a l IH]; simpl.
  - intros b Hb. by apply elem_of_nil in Hb.
  - destruct (f a) eqn:Hfa.
    + exists 0. split; [done|]. split; [done|]. intros j b Hj. lia.
    + destruct (find f l) as [a'|].
      * destruct IH as (i & Hi & Hfa' & Hfirst). exists (S i).
        split; [done|]. split; [done|]. intros [|j] b Hj Hb; simpl in Hb.
        -- congruence.
        -- apply (Hfirst j); [lia|done].
      * intros b [->|Hb]%elem_of_cons; [done|by apply IH].
Qed.

(** C7. Let the heap below [m] unfold to a tree [t].  With fuel for the
    height of [t], [m.getByID(s)] returns without writing to the heap, and
    the pointer returned is to the first node of the pre-order of [t] (the
    node [m] itself first, then the children from left to right, each
    followed by what is below it) whose id is [s], or [nil] when no node of
    [t] has id [s]; when [c] is the only node of [t] with id [s], the
    pointer returned is to [c]. *)
Theorem getByID_correct (h : heap) (t : tree) (s : string) :
  shape h t →
  ∀ fuel, height t ≤ fuel →
  ∃ r, getByID fuel (Some (root t)) s h = Ok r h
    ∧ head (preorder t) = Some (root t, content t)
    ∧ match r with
      | Some l => ∃ i n, preorder t !! i = Some (l, n) ∧ ID n = s
                         ∧ ∀ j e, j < i → preorder t !! j = Some e → ID e.2 ≠ s
      | None => ∀ e, e ∈ preorder t → ID e.2 ≠ s
      end
    ∧ (∀ c nc, (c, nc) ∈ preorder t → ID nc = s →
         (∀ e, e ∈ preorder t → ID e.2 = s → e.1 = c) → r = Some c)
    ∧ ((∀ e, e ∈ preorder t → ID e.2 ≠ s) → r = nil_ptr).
Proof.
  intros Hshape fuel Hfuel. eexists. split; [by apply getByID_spec|].
  split; [by destruct t|].
  pose proof (find_first_index (has_id s) (preorder t)) as Hfind.
  destruct (find (has_id s) (preorder t)) as [[l n]|]; cbn [fmap option_fmap option_map fst].
  - destruct Hfind as (i & Hi & Hid & Hfirst).
    apply bool_decide_eq_true in Hid. cbn [snd] in Hid.
    split; [|split].
    + exists i, n. split; [done|]. split; [done|]. intros j e Hj He.
      specialize (Hfirst j e Hj He). by apply bool_decide_eq_false in Hfirst.
    + intros c nc _ _ Honly. f_equal.
      apply (Honly (l, n)); [by eapply list_elem_of_lookup_2|done].
    + intros Hnone. destruct (Hnone (l, n)); [by eapply list_elem_of_lookup_2|done].
  - split; [|split].
    + intros e He. specialize (Hfind e He). by apply bool_decide_eq_false in Hfind.
    + intros c nc Hin Hid _. specialize (Hfind _ Hin).
      apply bool_decide_eq_false in Hfind. by destruct Hfind.
    + done.
Qed.

(** ** [removeByID] *)

Lemma searched_Node l n kids : searched (Node l n kids) = walk gate l 0 kids.
Proof. done. Qed.

Lemma removeByID_range_spec (rec : ptr → M bool) (id : string) (h : heap)
    (l : loc) (n : MenuItem) (ks : list tree) :
  h !! l = Some n →
  Forall (shape h) ks →
  Forall (λ k, rec (Some (root k)) h = removal id (searched k) h) ks →
  ∀ before, SubMenu_ n = map (λ k, Some (root k)) (before ++ ks) →
  removeByID_range rec (Some l) id (Z.of_nat (length before))
    (map (λ k, Some (root k)) ks) h =
  removal id (walk gate l (length before) ks) h.
Proof.
  intros Hl Hshape Hrec. induction Hrec as [|k ks Hk _ IH]; intros before Hkids.
  { done. }
  apply Forall_cons in Hshape as [Hshk Hshape].
  assert (length before < length (SubMenu_ n)) as Hlt.
  { rewrite Hkids, length_map, length_app. simpl. lia. }
  assert (removeByID_range rec (Some l) id (Z.of_nat (length before) + 1)
            (map (λ k, Some (root k)) ks) h =
          removal id (walk gate l (S (length before)) ks) h) as Hnext.
  { replace (Z.of_nat (length before) + 1)%Z with (Z.of_nat (length (before ++ [k])))
      by (rewrite length_app; simpl; lia).
    replace (S (length before)) with (length (before ++ [k]))
      by (rewrite length_app; simpl; lia).
    apply IH; [done|]. by rewrite <- app_assoc. }
  cbn [map removeByID_range walk].
  rewrite (bind_ok _ _ _ _ _ (load_ok _ _ _ (shape_root _ _ Hshk))).
  unfold removal at 1. cbn [find]. unfold place_has_id at 1. cbn [snd].
  case_bool_decide as Hid.
  - rewrite (bind_ok _ _ _ _ _ (load_ok _ _ _ Hl)).
    rewrite (bind_ok _ _ _ _ _ (slice_prefix _ (length before) _ (Nat.lt_le_incl _ _ Hlt))).
    replace (Z.of_nat (length before) + 1)%Z with (Z.of_nat (S (length before))) by lia.
    rewrite (bind_ok _ _ _ _ _ (slice_suffix _ (S (length before)) _ Hlt)).
    rewrite (bind_ok _ _ _ _ _ (set_SubMenu_ok _ _ _ _ Hl)).
    unfold ret, remove_child. by rewrite Hl, delete_take_drop.
  - rewrite (bind_ok _ _ _ _ _ (isSubMenu_ok _ _ _ (shape_root _ _ Hshk))).
    rewrite find_app_first. unfold gate at 1.
    destruct (bool_decide (Type__ (content k) = SubmenuType)).
    + unfold removal in Hk, Hnext |- *.
      destruct (find (place_has_id id) (searched k)) as [[[p i] c]|];
        rewrite (bind_ok _ _ _ _ _ Hk); [done|exact Hnext].
    + exact Hnext.
Qed.

Lemma removeByID_spec (h : heap) (id : string) (t : tree) :
  shape h t → ∀ fuel, height t ≤ fuel →
  removeByID fuel (Some (root t)) id h = removal id (searched t) h.
Proof.
  induction t as [l n kids IH] using tree_ind'.
  intros Hshape fuel Hfuel. inversion Hshape as [? ? ? Hl Hkids Hsub]; subst.
  destruct fuel as [|fuel]; [simpl in Hfuel; lia|].
  cbn [removeByID root]. rewrite (bind_ok _ _ _ _ _ (load_ok _ _ _ Hl)).
  rewrite searched_Node, Hkids.
  apply (removeByID_range_spec _ id h l n kids Hl Hsub) with (before := []); [|done].
  rewrite Forall_forall in IH, Hsub |- *. intros k Hk. apply IH; [done|by apply Hsub|].
  pose proof (height_kid k kids Hk). simpl in Hfuel. lia.
Qed.

(** Every place listed holds, in the heap, the child it names. *)
Lemma searched_in_heap (h : heap) (t : tree) :
  shape h t →
  ∀ p i c, (p, i, c) ∈ searched t →
  ∃ np, h !! p = Some np ∧ SubMenu_ np !! i = Some (Some (root c))
        ∧ h !! root c = Some (content c).
Proof.
  induction t as [l n kids IH] using tree_ind'.
  intros Hshape p i c Hin. inversion Hshape as [? ? ? Hl Hkids Hsub]; subst.
  rewrite searched_Node in Hin.
  assert (∀ before, SubMenu_ n = map (λ k, Some (root k)) (before ++ kids) →
          (p, i, c) ∈ walk gate l (length before) kids →
          ∃ np, h !! p = Some np ∧ SubMenu_ np !! i = Some (Some (root c))
                ∧ h !! root c = Some (content c)) as Hwalk.
  { clear Hin Hkids Hshape. induction kids as [|k kids IHkids]; intros before Hkids Hin.
    { by apply elem_of_nil in Hin. }
    apply Forall_cons in IH as [IHk IH]. apply Forall_cons in Hsub as [Hshk Hsub].
    cbn [walk] in Hin. rewrite elem_of_cons, elem_of_app in Hin.
    destruct Hin as [[= -> -> ->]|[Hin|Hin]].
    - exists n. split; [done|]. split; [|by apply shape_root].
      rewrite Hkids, list_lookup_fmap, lookup_app_r by lia.
      by rewrite Nat.sub_diag.
    - unfold gate in Hin. case_bool_decide; [|by apply elem_of_nil in Hin].
      by apply (IHk Hshk).
    - apply (IHkids IH Hsub (before ++ [k])).
      + by rewrite <- app_assoc.
      + rewrite length_app. simpl. by rewrite Nat.add_1_r. }
  by apply (Hwalk []).
Qed.

Lemma walk_ext (f g : tree → list place) (p : loc) (ks : list tree) :
  Forall (λ k, f k = g k) ks → ∀ i, walk f p i ks = walk g p i ks.
Proof.
  induction 1 as [|k ks Hk _ IH]; intros i; [done|].
  cbn [walk]. by rewrite Hk, IH.
Qed.

(** Under I3 nothing is left out: the places searched are all the places
    below the node. *)
Lemma searched_I3 (t : tree) : I3_tree t → searched t = descendants t.
Proof.
  induction t as [l n kids IH] using tree_ind'.
  intros HI3. inversion HI3 as [? ? ? _ Hkids]; subst.
  rewrite searched_Node. cbn [descendants]. apply walk_ext.
  rewrite Forall_forall in IH, Hkids |- *. intros k Hk.
  unfold gate. case_bool_decide as Hty; [by apply IH, Hkids|].
  specialize (Hkids k Hk). destruct Hkids as [lk nk kk Hsub _]. cbn [content] in Hty.
  destruct kk as [|k' kk]; [done|]. destruct Hty. by apply Hsub.
Qed.

(** C2 as first stated fails on a tree that breaks I3: below the root at
    location 1, the item with id ["d1"] is a child of a Text item, and
    [removeByID] does not look below a child that is not of Submenu kind; it
    returns false and the heap is unchanged. *)
Lemma removeByID_skips_below_text :
  shape irregular_heap irregular_tree
  ∧ (∃ c, (2%positive, 0, c) ∈ descendants irregular_tree ∧ ID (content c) = "d1")
  ∧ ∀ fuel, 3 ≤ fuel →
      removeByID fuel (Some 1%positive) "d1" irregular_heap = Ok false irregular_heap.
Proof.
  assert (shape irregular_heap irregular_tree) as Hshape.
  { repeat (constructor; try reflexivity). }
  split; [done|]. split.
  - exists (Node 3%positive (item "d1" TextType [] (Some 2%positive)) []).
    split; [|reflexivity]. cbn. apply list_elem_of_further, list_elem_of_here.
  - intros fuel Hfuel.
    exact (removeByID_spec irregular_heap "d1" irregular_tree Hshape fuel Hfuel).
Qed.

(** C2, as amended. Let the heap below [m] unfold to a tree [t].  With fuel
    for the height of [t], [m.removeByID(s)] returns, and what it does is
    fixed by the places below [m] in pre-order (each child of a node, from
    left to right, followed by the places below that child), where the places
    below a child that is not of Submenu kind are left out; these are all the
    places below [m] when I3 holds of [t].  The node [m] itself is not among
    them.  If the child at one of these places has id [s], then for the first
    such place, index [i] of the children of [p], the result is true, the
    children of [p] are the former ones without the element at index [i], in
    their former order.  If none has, the result is false and the heap is
    unchanged. *)
Theorem removeByID_correct (h : heap) (t : tree) (s : string) :
  shape h t →
  ∀ fuel, height t ≤ fuel →
  (I3_tree t → searched t = descendants t)
  ∧ ∃ b h',
      removeByID fuel (Some (root t)) s h = Ok b h'
      ∧ ((b = true
          ∧ ∃ k p i c np np',
              searched t !! k = Some (p, i, c)
              ∧ ID (content c) = s
              ∧ (∀ j e, j < k → searched t !! j = Some e → ID (content e.2) ≠ s)
              ∧ h !! p = Some np
              ∧ SubMenu_ np !! i = Some (Some (root c))
              ∧ h !! root c = Some (content c)
              ∧ h' !! p = Some np'
              ∧ SubMenu_ np' = take i (SubMenu_ np) ++ drop (S i) (SubMenu_ np)
              ∧ parent np' = parent np ∧ ID np' = ID np ∧ Type__ np' = Type__ np)
         ∨ (b = false ∧ h' = h
            ∧ ∀ e, e ∈ searched t → ID (content e.2) ≠ s)).
Proof.
  intros Hshape fuel Hfuel. split; [apply searched_I3|].
  rewrite (removeByID_spec h s t Hshape fuel Hfuel). unfold removal.
  pose proof (find_first_index (place_has_id s) (searched t)) as Hfind.
  destruct (find (place_has_id s) (searched t)) as [[[p i] c]|].
  - destruct Hfind as (k & Hk & Hid & Hfirst).
    apply bool_decide_eq_true in Hid. cbn [snd] in Hid.
    destruct (searched_in_heap h t Hshape p i c) as (np & Hp & Hi & Hc).
    { by eapply list_elem_of_lookup_2. }
    eexists _, _. split; [done|]. left. split; [done|].
    exists k, p, i, c, np. eexists.
    split; [done|]. split; [done|]. split.
    { intros j e Hj He. specialize (Hfirst j e Hj He).
      by apply bool_decide_eq_false in Hfirst. }
    split; [done|]. split; [done|]. split; [done|].
    unfold remove_child. rewrite Hp. split; [apply lookup_insert_eq|].
    split; [apply delete_take_drop|]. by repeat split.
  - eexists _, _. split; [done|]. right. split; [done|]. split; [done|].
    intros e He. specialize (Hfind e He). by apply bool_decide_eq_false in Hfind.
Qed.

(** [A.removeByID("d1")] on the scenario tree returns true and empties the
    children of [C]; called again it returns false. *)
Lemma removeByID_correct_witness :
  ∃ h' nc, removeByID 3 (Some 1%positive) "d1" scenario_heap = Ok true h'
           ∧ h' !! 3%positive = Some nc ∧ SubMenu_ nc = []
           ∧ removeByID 3 (Some 1%positive) "d1" h' = Ok false h'.
Proof.
  assert (shape scenario_heap scenario_tree) as Hshape
    by (repeat (constructor; try reflexivity)).
  destruct (removeByID_correct scenario_heap scenario_tree "d1" Hshape 3)
    as [_ (b & h' & Hrun & Heffect)]; [simpl; lia|].
  exists h', (item "c" SubmenuType [] (Some 1%positive)).
  cbn [root scenario_tree] in Hrun.
  assert (Ok b h' = Ok true (<[3%positive := item "c" SubmenuType [] (Some 1%positive)]> scenario_heap))
    as [= -> ->] by (rewrite <- Hrun; vm_compute; reflexivity).
  split; [reflexivity|]. split; [reflexivity|]. split; [reflexivity|].
  vm_compute. reflexivity.
Defined.

(** ** Lookup against removal *)

Lemma walk_text_children (s : string) (p : loc) (ks : list tree) :
  Forall (λ k, Type__ (content k) ≠ SubmenuType ∧ ID (content k) ≠ s) ks →
  ∀ i, find (place_has_id s) (walk gate p i ks) = None.
Proof.
  induction 1 as [|k ks [Hty Hid] _ IH]; intros i; [done|].
  cbn [walk find]. unfold place_has_id at 1. cbn [snd].
  rewrite bool_decide_eq_false_2 by done.
  unfold gate. rewrite bool_decide_eq_false_2 by done. apply IH.
Qed.

(** C10. [getByID] answers with the first node in the pre-order of the whole
    tree, whatever the kinds of the nodes, while [removeByID] passes over
    what is below a child that is not of Submenu kind: on a tree whose root
    has only such children, none of them with id [s], it returns false and
    leaves the heap unchanged.  So there is a heap, in which an item [x] not
    of Submenu kind has a child [d] with id [s], where [getByID(s)] from the
    root returns [d] and [removeByID(s)] from the root returns false and
    changes nothing. *)
Theorem lookup_removal_asymmetry :
  (∀ (h : heap) (t : tree) (s : string) (fuel : nat),
     shape h t → height t ≤ fuel →
     Forall (λ k, Type__ (content k) ≠ SubmenuType ∧ ID (content k) ≠ s) (subtrees t) →
     getByID fuel (Some (root t)) s h = Ok (fst <$> find (has_id s) (preorder t)) h
     ∧ removeByID fuel (Some (root t)) s h = Ok false h)
  ∧ (∃ (h : heap) (m x d : loc) (nx nd : MenuItem) (s : string),
       h !! x = Some nx ∧ Type__ nx ≠ SubmenuType
       ∧ Some d ∈ SubMenu_ nx
       ∧ h !! d = Some nd ∧ ID nd = s
       ∧ ∀ fuel, 3 ≤ fuel →
           getByID fuel (Some m) s h = Ok (Some d) h
           ∧ removeByID fuel (Some m) s h = Ok false h).
Proof.
  assert (∀ (h : heap) (t : tree) (s : string) (fuel : nat),
     shape h t → height t ≤ fuel →
     Forall (λ k, Type__ (content k) ≠ SubmenuType ∧ ID (content k) ≠ s) (subtrees t) →
     getByID fuel (Some (root t)) s h = Ok (fst <$> find (has_id s) (preorder t)) h
     ∧ removeByID fuel (Some (root t)) s h = Ok false h) as Hgeneral.
  { intros h t s fuel Hshape Hfuel Hkids. split; [by apply getByID_spec|].
    rewrite (removeByID_spec h s t Hshape fuel Hfuel). unfold removal.
    destruct t as [l n kids]. rewrite searched_Node.
    by rewrite (walk_text_children s l kids Hkids 0). }
  split; [exact Hgeneral|].
  exists irregular_heap, 1%positive, 2%positive, 3%positive.
  eexists _, _, "d1".
  split; [reflexivity|]. split; [by simpl|].
  split; [apply list_elem_of_here|]. split; [reflexivity|]. split; [reflexivity|].
  intros fuel Hfuel.
  apply (Hgeneral irregular_heap irregular_tree "d1" fuel).
  - repeat (constructor; try reflexivity).
  - exact Hfuel.
  - repeat constructor; by simpl.
Qed.

(** The two searches on the tree [A -> [T -> [D "d1"]]], [T] a Text item. *)
Lemma lookup_removal_asymmetry_witness :
  getByID 3 (Some 1%positive) "d1" irregular_heap = Ok (Some 3%positive) irregular_heap
  ∧ removeByID 3 (Some 1%positive) "d1" irregular_heap = Ok false irregular_heap.
Proof.
  apply (proj1 lookup_removal_asymmetry irregular_heap irregular_tree "d1" 3).
  - repeat (constructor; try reflexivity).
  - simpl. lia.
  - repeat constructor; by simpl.
Defined.

(** ** The invariants *)

Lemma I1_map_iff (h : heap) : I1_map h ↔ I1 h.
Proof.
  unfold I1_map, I1, I1_at. rewrite map_Forall_lookup. split.
  - intros H a na Ha. destruct (H a na Ha) as [Hin Hroot]. split.
    + intros p (np & Hp & Hmem). by apply (Hin p np).
    + intros Hnone. apply Hroot. intros p np Hp Hmem. apply (Hnone p). by exists np.
  - intros H a na Ha. destruct (H a na Ha) as [Hin Hroot]. split.
    + intros p np Hp Hmem. apply Hin. by exists np.
    + intros Hnone. apply Hroot. intros p (np & Hp & Hmem). by apply (Hnone p np).
Qed.

Lemma I2_map_iff (h : heap) : I2_map h ↔ I2 h.
Proof.
  unfold I2_map, I2. rewrite map_Forall_lookup. split.
  - intros H p np Hp. destruct (H p np Hp) as [Hnd Hq]. split; [done|].
    intros q nq a Hq' Ha Ha'. specialize (Hq q nq Hq'). rewrite Forall_forall in Hq.
    by apply (Hq a).
  - intros H p np Hp. destruct (H p np Hp) as [Hnd Hq]. split; [done|].
    intros q nq Hq'. rewrite Forall_forall. intros a Ha Ha'. by apply (Hq q nq a).
Qed.

Lemma I3_map_iff (h : heap) : I3_map h ↔ I3 h.
Proof. unfold I3_map, I3. by rewrite map_Forall_lookup. Qed.

#[global] Instance I1_dec (h : heap) : Decision (I1 h).
Proof. refine (cast_if (decide (I1_map h))); by rewrite <- I1_map_iff. Defined.

#[global] Instance I2_dec (h : heap) : Decision (I2 h).
Proof. refine (cast_if (decide (I2_map h))); by rewrite <- I2_map_iff. Defined.

#[global] Instance I3_dec (h : heap) : Decision (I3 h).
Proof. refine (cast_if (decide (I3_map h))); by rewrite <- I3_map_iff. Defined.

Lemma scenario_heap_invariants : I1 scenario_heap ∧ I2 scenario_heap ∧ I3 scenario_heap.
Proof. split; [|split]; compute_done. Qed.

Lemma I1_lookup (h : heap) a na :
  I1 h → h !! a = Some na →
  (∀ p, child_of h a p → parent na = Some p)
  ∧ ((∀ p, ¬ child_of h a p) → parent na = None).
Proof. intros HI1 Ha. by apply (HI1 a). Qed.

(** Under I1, a struct with a parent is among the children of that parent,
    which is therefore a struct of the heap. *)
Lemma I1_parent_holds (h : heap) t nt p :
  I1 h → h !! t = Some nt → parent nt = Some p → child_of h t p.
Proof.
  intros HI1 Ht Hpar. destruct (I1_lookup h t nt HI1 Ht) as [Hin Hroot].
  destruct (decide (map_Exists (λ q nq, Some t ∈ SubMenu_ nq) h)) as [Hex|Hnex].
  - apply map_Exists_lookup in Hex as (q & nq & Hq & Hmem).
    assert (child_of h t q) as Hc by (by exists nq).
    specialize (Hin q Hc). by assert (q = p) as -> by congruence.
  - rewrite Hroot in Hpar; [done|]. intros q (nq & Hq & Hmem).
    apply Hnex, map_Exists_lookup. by exists q, nq.
Qed.

Lemma with_fields_id (n : MenuItem) :
  with_SubMenu (SubMenu_ n) (with_parent (parent n) n) = n.
Proof. by destruct n. Qed.

Lemma attached_lookup (h : heap) m x nm nx nm1 s :
  h !! m = Some nm → h !! x = Some nx →
  <[x := with_parent (Some m) nx]> h !! m = Some nm1 →
  ∀ a, <[m := with_SubMenu s nm1]> (<[x := with_parent (Some m) nx]> h) !! a
       = attach_node m x s a <$> h !! a.
Proof.
  intros Hm Hx Hm1 a. unfold attach_node.
  destruct (decide (a = m)) as [->|Ham].
  - rewrite lookup_insert_eq, Hm. simpl. f_equal.
    destruct (decide (m = x)) as [<-|Hmx].
    + rewrite lookup_insert_eq in Hm1. congruence.
    + rewrite lookup_insert_ne in Hm1 by done.
      assert (nm1 = nm) as -> by congruence. by destruct nm.
  - rewrite lookup_insert_ne by done.
    destruct (decide (a = x)) as [->|Hax].
    + rewrite lookup_insert_eq, Hx. simpl. by destruct nx.
    + rewrite lookup_insert_ne by done.
      destruct (h !! a) as [na|]; [|done]. simpl. f_equal. by destruct na.
Qed.

(** Attaching [x] to [m] keeps I1 when no other struct has [x] as a child. *)
Lemma I1_attach (h : heap) m x nm nx nm1 s :
  I1 h → h !! m = Some nm → h !! x = Some nx →
  <[x := with_parent (Some m) nx]> h !! m = Some nm1 →
  (∀ q, child_of h x q → q = m) →
  (∀ a, a ∈ s ↔ a ∈ SubMenu_ nm ∨ a = Some x) →
  I1 (<[m := with_SubMenu s nm1]> (<[x := with_parent (Some m) nx]> h)).
Proof.
  intros HI1 Hm Hx Hm1 Honly Hmem.
  pose proof (attached_lookup h m x nm nx nm1 s Hm Hx Hm1) as Hlook.
  set (h' := <[m := with_SubMenu s nm1]> (<[x := with_parent (Some m) nx]> h)) in *.
  assert (∀ a p, child_of h' a p ↔ child_of h a p ∨ (a = x ∧ p = m)) as Hchild.
  { intros a p. unfold child_of. split.
    - intros (np' & Hp' & Hin). rewrite Hlook in Hp'.
      destruct (h !! p) as [np|] eqn:Hp; [|done]. injection Hp' as <-.
      unfold attach_node in Hin. simpl in Hin.
      destruct (decide (p = m)) as [->|Hpm].
      + apply Hmem in Hin as [Hin|[= ->]]; [|by right].
        left. exists nm. split; [congruence|done].
      + left. by exists np.
    - intros [(np & Hp & Hin)|[-> ->]].
      + exists (attach_node m x s p np). rewrite Hlook, Hp. split; [done|].
        unfold attach_node. simpl. destruct (decide (p = m)) as [->|Hpm]; [|done].
        apply Hmem. left. congruence.
      + exists (attach_node m x s m nm). rewrite Hlook, Hm. split; [done|].
        unfold attach_node. simpl. rewrite decide_True by done. apply Hmem. by right. }
  intros a na' Ha'. rewrite Hlook in Ha'.
  destruct (h !! a) as [na|] eqn:Ha; [|done]. injection Ha' as <-.
  destruct (I1_lookup h a na HI1 Ha) as [Hin Hroot].
  unfold attach_node. simpl. split.
  - intros p [Hc|[-> ->]]%Hchild.
    + destruct (decide (a = x)) as [->|Hax]; [|by apply Hin].
      f_equal. symmetry. by apply Honly.
    + by rewrite decide_True.
  - intros Hnone. assert (a ≠ x) as Hax.
    { intros ->. apply (Hnone m), Hchild. by right. }
    rewrite decide_False by done. apply Hroot. intros p Hc.
    apply (Hnone p), Hchild. by left.
Qed.

Lemma elem_of_insert_between (s : list ptr) (i : nat) (x a : ptr) :
  a ∈ take i s ++ x :: drop i s ↔ a ∈ s ∨ a = x.
Proof.
  rewrite <- (take_drop i s) at 3.
  rewrite !elem_of_app, elem_of_cons. tauto.
Qed.

(** [Prepend] keeps I1 when no other struct has [x] as a child. *)
Lemma Prepend_keep_I1 (h : heap) m x nm nx :
  I1 h → h !! m = Some nm → h !! x = Some nx →
  (∀ q, child_of h x q → q = m) →
  ∃ b h', Prepend (Some m) (Some x) h = Ok b h' ∧ I1 h'.
Proof.
  intros HI1 Hm Hx Honly.
  destruct (decide (Type__ nm = SubmenuType)) as [Hty|Hty].
  - destruct (Prepend_submenu h m nm x nx Hm Hx Hty) as (nm1 & Hm1 & _ & Hpre).
    eexists _, _. split; [exact Hpre|].
    apply (I1_attach h m x nm nx nm1); try done.
    intros a. rewrite elem_of_cons. tauto.
  - exists false, h. split; [by eapply Prepend_not_submenu|done].
Qed.

Lemma insertNewItem_not_submenu (h : heap) p np t x :
  h !! p = Some np → Type__ np ≠ SubmenuType →
  insertNewItemAfterGivenItem (Some p) t x h = Ok false h
  ∧ insertNewItemBeforeGivenItem (Some p) t x h = Ok false h.
Proof.
  intros Hp Hty. unfold insertNewItemAfterGivenItem, insertNewItemBeforeGivenItem.
  rewrite !(bind_ok _ _ _ _ _ (isSubMenu_ok _ _ _ Hp)).
  by rewrite bool_decide_eq_false_2.
Qed.

(** Taking the element at index [i] out leaves every other element in. *)
Lemma elem_of_delete_other (s : list ptr) (i : nat) (c a : ptr) :
  s !! i = Some c → a ≠ c → (a ∈ delete i s ↔ a ∈ s).
Proof.
  intros Hi Hac. split; [apply list_elem_of_delete_inv|].
  rewrite delete_take_drop. rewrite <- (take_drop_middle s i c Hi) at 1.
  rewrite !elem_of_app, elem_of_cons. tauto.
Qed.

Lemma remove_child_lookup (h : heap) p np i :
  h !! p = Some np →
  ∀ a, remove_child p i h !! a =
       (λ na, if decide (a = p) then with_SubMenu (delete i (SubMenu_ na)) na else na)
         <$> h !! a.
Proof.
  intros Hp a. unfold remove_child. rewrite Hp.
  destruct (decide (a = p)) as [->|Hap].
  - by rewrite lookup_insert_eq, Hp.
  - rewrite lookup_insert_ne by done. by destruct (h !! a).
Qed.

(** Removing a child keeps I1 at every struct but the one removed, whose
    parent field is not written. *)
Lemma I1_remove_child (h : heap) p np i c nc :
  I1 h → h !! p = Some np → SubMenu_ np !! i = Some (Some c) → h !! c = Some nc →
  (∃ nc', remove_child p i h !! c = Some nc' ∧ parent nc' = Some p)
  ∧ ∀ a, a ≠ c → I1_at (remove_child p i h) a.
Proof.
  intros HI1 Hp Hi Hc.
  pose proof (remove_child_lookup h p np i Hp) as Hlook.
  assert (child_of h c p) as Hcp.
  { exists np. split; [done|]. by eapply list_elem_of_lookup_2. }
  split.
  - rewrite Hlook, Hc. eexists. split; [done|].
    destruct (I1_lookup h c nc HI1 Hc) as [Hin _]. specialize (Hin p Hcp).
    by case_decide.
  - intros a Hac.
    assert (Some a ∈ delete i (SubMenu_ np) ↔ Some a ∈ SubMenu_ np) as Hd
      by (apply (elem_of_delete_other _ i (Some c)); [done|congruence]).
    assert (∀ q, child_of (remove_child p i h) a q ↔ child_of h a q) as Hchild.
    { intros q. unfold child_of. rewrite Hlook. split.
      - intros (nq' & Hq' & Hin). destruct (h !! q) as [nq|] eqn:Hq; [|done].
        injection Hq' as <-. exists nq. split; [done|].
        case_decide as Hqp; [|done]. subst q. simpl in Hin.
        assert (nq = np) as -> by congruence. by apply Hd.
      - intros (nq & Hq & Hin). rewrite Hq. eexists. split; [done|].
        case_decide as Hqp; [|done]. subst q. simpl.
        assert (nq = np) as -> by congruence. by apply Hd. }
    intros na' Ha'. rewrite Hlook in Ha'.
    destruct (h !! a) as [na|] eqn:Ha; [|done]. injection Ha' as <-.
    destruct (I1_lookup h a na HI1 Ha) as [Hin Hroot].
    assert (parent (if decide (a = p) then with_SubMenu (delete i (SubMenu_ na)) na else na)
            = parent na) as -> by (by case_decide).
    split.
    + intros q Hq%Hchild. by apply Hin.
    + intros Hnone. apply Hroot. intros q Hq%Hchild. by apply (Hnone q).
Qed.

Lemma not_elem_of_delete_NoDup (s : list ptr) (i : nat) (c : ptr) :
  NoDup s → s !! i = Some c → c ∉ delete i s.
Proof.
  intros Hnd Hi. rewrite delete_take_drop.
  rewrite <- (take_drop_middle s i c Hi) in Hnd.
  apply NoDup_app in Hnd as (_ & Hdisj & Hnd). apply NoDup_cons in Hnd as [Hc _].
  rewrite elem_of_app. intros [Hin|Hin]; [|done].
  apply (Hdisj c Hin). apply list_elem_of_here.
Qed.

(** Under I2, the child taken out is in no children list afterwards. *)
Lemma removed_child_free (h : heap) p np i c :
  I2 h → h !! p = Some np → SubMenu_ np !! i = Some (Some c) →
  ∀ q, ¬ child_of (remove_child p i h) c q.
Proof.
  intros HI2 Hp Hi q (nq' & Hq' & Hin).
  rewrite (remove_child_lookup h p np i Hp) in Hq'.
  destruct (h !! q) as [nq|] eqn:Hq; [|done]. injection Hq' as <-.
  destruct (HI2 p np Hp) as [Hnd Hcross].
  case_decide as Hqp.
  - subst q. assert (nq = np) as -> by congruence. simpl in Hin.
    by apply (not_elem_of_delete_NoDup _ i (Some c) Hnd Hi).
  - apply Hqp. symmetry. apply (Hcross q nq (Some c) Hq); [|done].
    by eapply list_elem_of_lookup_2.
Qed.

Lemma removeByID_keep_I1 (h : heap) t s fuel :
  I1 h → I2 h → shape h t → height t ≤ fuel →
  ∃ b h', removeByID fuel (Some (root t)) s h = Ok b h'
    ∧ ((b = false ∧ h' = h)
       ∨ (b = true
          ∧ ∃ p c nc nc', child_of h c p ∧ h !! c = Some nc ∧ ID nc = s
              ∧ h' !! c = Some nc' ∧ parent nc' = Some p
              ∧ (∀ q, ¬ child_of h' c q)
              ∧ ∀ a, a ≠ c → I1_at h' a)).
Proof.
  intros HI1 HI2 Hshape Hfuel.
  rewrite (removeByID_spec h s t Hshape fuel Hfuel). unfold removal.
  pose proof (find_first_index (place_has_id s) (searched t)) as Hfind.
  destruct (find (place_has_id s) (searched t)) as [[[p i] c]|].
  - destruct Hfind as (k & Hk & Hid & _).
    apply bool_decide_eq_true in Hid. cbn [snd] in Hid.
    destruct (searched_in_heap h t Hshape p i c) as (np & Hp & Hi & Hc).
    { by eapply list_elem_of_lookup_2. }
    destruct (I1_remove_child h p np i (root c) (content c) HI1 Hp Hi Hc)
      as [(nc' & Hc' & Hpar) Hothers].
    eexists _, _. split; [done|]. right. split; [done|].
    exists p, (root c), (content c), nc'.
    split; [exists np; split; [done|]; by eapply list_elem_of_lookup_2|].
    split; [done|]. split; [done|]. split; [done|]. split; [done|].
    split; [by eapply removed_child_free|exact Hothers].
  - eexists _, _. split; [done|]. by left.
Qed.

Lemma child_of_map (h : heap) (x : loc) (P : loc → Prop) :
  map_Forall (λ q nq, Some x ∈ SubMenu_ nq → P q) h →
  ∀ q, child_of h x q → P q.
Proof.
  intros Hall q (nq & Hq & Hin). by apply (map_Forall_lookup_1 _ _ _ _ Hall Hq).
Qed.

(** [A.getByID("d1")] on the scenario tree returns [D]. *)
Lemma getByID_correct_witness :
  getByID 3 (Some 1%positive) "d1" scenario_heap = Ok (Some 4%positive) scenario_heap.
Proof.
  destruct (getByID_correct scenario_heap scenario_tree "d1") with (fuel := 3)
    as (r & Hrun & _ & _ & Hone & _).
  - repeat (constructor; try reflexivity).
  - simpl. lia.
  - cbn [root scenario_tree] in Hrun. rewrite Hrun. f_equal.
    apply (Hone 4%positive (item "d1" TextType [] (Some 3%positive))).
    + cbn. do 3 apply list_elem_of_further. apply list_elem_of_here.
    + reflexivity.
    + intros e He Hid. cbn in He.
      repeat (apply elem_of_cons in He as [->|He]; [try done|]).
      by apply elem_of_nil in He.
Defined.

(** * Further properties of the operations *)

(** ** Looking a child up by identity *)

(** X1. [m.getItemIndex(target)] reads only: on a receiver not of Submenu
    kind it answers [-1]; on a Submenu receiver it answers the first index
    at which the children hold [target] itself (the pointer, [nil]
    included), and [-1] exactly when no child is [target]. *)
Theorem getItemIndex_first_index (h : heap) (m : loc) (nm : MenuItem) (target : ptr) :
  h !! m = Some nm →
  ∃ r, getItemIndex (Some m) target h = Ok r h
    ∧ (Type__ nm ≠ SubmenuType → r = (-1)%Z)
    ∧ (Type__ nm = SubmenuType →
         (r = (-1)%Z ∧ target ∉ SubMenu_ nm)
         ∨ (∃ i, r = Z.of_nat i ∧ SubMenu_ nm !! i = Some target
                 ∧ ∀ j, j < i → SubMenu_ nm !! j ≠ Some target)).
Proof.
  intros Hm. destruct (decide (Type__ nm = SubmenuType)) as [Hty|Hty].
  - exists (getItemIndex_range target 0 (SubMenu_ nm)).
    split; [by apply getItemIndex_ok|]. split; [done|]. intros _.
    destruct (getItemIndex_range_cases target 0 (SubMenu_ nm))
      as [[Hr Hnot]|(i & Hr & Hi & Hfirst)].
    + left. by split.
    + right. exists i. by split.
  - exists (-1)%Z. split; [|split; [done|by intros ?]].
    unfold getItemIndex. rewrite (bind_ok _ _ _ _ _ (isSubMenu_ok _ _ _ Hm)).
    by rewrite bool_decide_eq_false_2.
Qed.

(** In the scenario tree [C] is the second child of [A], and [D] is not a
    child of [A]. *)
Lemma getItemIndex_first_index_witness :
  getItemIndex (Some 1%positive) (Some 3%positive) scenario_heap = Ok 1%Z scenario_heap
  ∧ getItemIndex (Some 1%positive) (Some 4%positive) scenario_heap = Ok (-1)%Z scenario_heap.
Proof.
  split.
  - destruct (getItemIndex_first_index scenario_heap 1%positive _ (Some 3%positive) eq_refl)
      as (r & Hrun & _ & _).
    rewrite Hrun. vm_compute in Hrun. congruence.
  - destruct (getItemIndex_first_index scenario_heap 1%positive _ (Some 4%positive) eq_refl)
      as (r & Hrun & _ & _).
    rewrite Hrun. vm_compute in Hrun. congruence.
Defined.

(** ** Insertion beside a target that cannot serve *)

Lemma insertNewItem_not_found (h : heap) p np t x :
  h !! p = Some np → Type__ np = SubmenuType → t ∉ SubMenu_ np →
  insertNewItemAfterGivenItem (Some p) t x h = Ok false h
  ∧ insertNewItemBeforeGivenItem (Some p) t x h = Ok false h.
Proof.
  intros Hp Hty Hnot. unfold insertNewItemAfterGivenItem, insertNewItemBeforeGivenItem.
  rewrite !(bind_ok _ _ _ _ _ (isSubMenu_ok _ _ _ Hp)).
  rewrite bool_decide_eq_true_2 by done. simpl.
  rewrite !(bind_ok _ _ _ _ _ (getItemIndex_ok _ _ _ _ Hp Hty)).
  destruct (getItemIndex_range_cases t 0 (SubMenu_ np))
    as [[Hr _]|(i & _ & Hi & _)].
  - change (Z.of_nat 0) with 0%Z in Hr. rewrite Hr. by rewrite bool_decide_eq_true_2.
  - destruct Hnot. by eapply list_elem_of_lookup_2.
Qed.

Lemma Insert_no_anchor (h : heap) (t p : loc) (nt np : MenuItem) (x : ptr) :
  h !! t = Some nt → parent nt = Some p → h !! p = Some np →
  Type__ np ≠ SubmenuType ∨ Some t ∉ SubMenu_ np →
  InsertAfter (Some t) x h = Ok false h ∧ InsertBefore (Some t) x h = Ok false h.
Proof.
  intros Ht Hpar Hp Hcase.
  destruct (Insert_child h t nt p x Ht Hpar) as [-> ->].
  destruct (decide (Type__ np = SubmenuType)) as [Hty|Hty].
  - destruct Hcase as [?|Hnot]; [done|]. by apply (insertNewItem_not_found h p np).
  - by apply (insertNewItem_not_submenu h p np).
Qed.

(** X2. When the parent recorded in [t] is a struct that is not of Submenu
    kind, or whose children do not hold [t] (a parent field left behind by a
    removal), [t.InsertAfter(x)] and [t.InsertBefore(x)] return false and
    write nothing, whatever [x] is. *)
Theorem Insert_without_anchor (h : heap) (t p : loc) (nt np : MenuItem) (x : ptr) :
  h !! t = Some nt → parent nt = Some p → h !! p = Some np →
  Type__ np ≠ SubmenuType ∨ Some t ∉ SubMenu_ np →
  InsertAfter (Some t) x h = Ok false h ∧ InsertBefore (Some t) x h = Ok false h.
Proof.
  intros Ht Hpar Hp Hcase.
  destruct (Insert_child h t nt p x Ht Hpar) as [-> ->].
  destruct (decide (Type__ np = SubmenuType)) as [Hty|Hty].
  - destruct Hcase as [Hkind|Hnot]; [done|].
    by apply (insertNewItem_not_found h p np).
  - by apply (insertNewItem_not_submenu h p np).
Qed.

(** Once [D] was removed from [C] in the scenario tree, [D] still names [C]
    as its parent and cannot anchor an insertion. *)
Lemma Insert_without_anchor_witness :
  InsertAfter (Some 4%positive) (Some 5%positive) (remove_child 3%positive 0 scenario_heap)
    = Ok false (remove_child 3%positive 0 scenario_heap)
  ∧ InsertBefore (Some 4%positive) (Some 5%positive) (remove_child 3%positive 0 scenario_heap)
    = Ok false (remove_child 3%positive 0 scenario_heap).
Proof.
  apply (Insert_without_anchor (remove_child 3%positive 0 scenario_heap)
           4%positive 3%positive _ _ (Some 5%positive) eq_refl eq_refl eq_refl).
  right. vm_compute. apply not_elem_of_nil.
Defined.

(** ** Insertion at any index *)

(** X3. For every index from 0 to the number of children of [m],
    [insertItemAtIndex] returns true with one child more: the item is at the
    index, the children before it are as they were, those from the index on
    are one place further, and the item has parent [m]. *)
Theorem insertItemAtIndex_in_range (h : heap) (m x : loc) (nm nx : MenuItem) (index : Z) :
  h !! m = Some nm → h !! x = Some nx →
  (0 ≤ index ≤ len (SubMenu_ nm))%Z →
  ∃ h' nm' nx',
    insertItemAtIndex (Some m) index (Some x) h = Ok true h'
    ∧ h' !! m = Some nm' ∧ h' !! x = Some nx'
    ∧ parent nx' = Some m
    ∧ length (SubMenu_ nm') = S (length (SubMenu_ nm))
    ∧ SubMenu_ nm' !! Z.to_nat index = Some (Some x)
    ∧ (∀ j, j < Z.to_nat index → SubMenu_ nm' !! j = SubMenu_ nm !! j)
    ∧ (∀ j, Z.to_nat index ≤ j → SubMenu_ nm' !! S j = SubMenu_ nm !! j).
Proof.
  intros Hm Hx Hrange. unfold len in Hrange.
  assert (∃ i, index = Z.of_nat i) as [i ->] by (exists (Z.to_nat index); lia).
  rewrite Nat2Z.id. assert (i ≤ length (SubMenu_ nm)) as Hi by lia.
  destruct (insertItemAtIndex_in_bounds h m nm x nx i Hm Hx Hi) as (nm1 & Hm1 & Hrun).
  set (s := take i (SubMenu_ nm) ++ Some x :: drop i (SubMenu_ nm)) in *.
  destruct (attached_heap h m x nx nm1 s Hx Hm1)
    as ((nm' & Hm' & Hs') & (nx' & Hx' & Hp') & Hframe).
  assert (length (take i (SubMenu_ nm)) = i) as Hlen by (rewrite length_take; lia).
  eexists _, nm', nx'. split; [exact Hrun|]. rewrite Hs'.
  split; [done|]. split; [done|]. split; [done|].
  split. { subst s. rewrite length_app, Hlen. simpl. rewrite length_drop. lia. }
  split. { subst s. rewrite lookup_app_r by lia. by rewrite Hlen, Nat.sub_diag. }
  split. { intros j Hj. subst s. rewrite lookup_app_l by lia. by rewrite lookup_take_lt. }
  intros j Hj. subst s. rewrite lookup_app_r by lia. rewrite Hlen.
  replace (S j - i) with (S (j - i)) by lia. simpl. rewrite lookup_drop. f_equal. lia.
Qed.

(** Inserting [E] at index 1 of the children [[B; C]] of [A]. *)
Lemma insertItemAtIndex_in_range_witness :
  ∃ h' nm', insertItemAtIndex (Some 1%positive) 1 (Some 5%positive) scenario_heap = Ok true h'
            ∧ h' !! 1%positive = Some nm'
            ∧ SubMenu_ nm' !! 1 = Some (Some 5%positive).
Proof.
  destruct (insertItemAtIndex_in_range scenario_heap 1%positive 5%positive _ _ 1%Z
              eq_refl eq_refl) as (h' & nm' & nx' & Hrun & Hm & _ & _ & _ & Hat & _).
  - vm_compute. split; discriminate.
  - exists h', nm'. split; [exact Hrun|]. split; [exact Hm|]. exact Hat.
Defined.

(** X4. With a negative index [insertItemAtIndex] does not return: the bounds
    check lets the index through, and slicing the children panics (or, for a
    [nil] item, the write of its parent does). *)
Theorem insertItemAtIndex_negative (h : heap) (m : loc) (nm : MenuItem)
    (index : Z) (target : ptr) :
  h !! m = Some nm → (index < 0)%Z →
  insertItemAtIndex (Some m) index target h = Panic.
Proof.
  intros Hm Hneg. unfold insertItemAtIndex.
  rewrite (bind_ok _ _ _ _ _ (load_ok _ _ _ Hm)).
  rewrite bool_decide_eq_false_2 by (unfold len; lia).
  destruct target as [x|]; [|done].
  destruct (h !! x) as [nx|] eqn:Hx.
  2: { unfold bind at 1. unfold set_parent, update. by rewrite Hx. }
  destruct (lookup_after_set_parent h m x nm nx (Some m) Hm Hx) as (nm1 & Hm1 & Hs & _).
  rewrite (bind_ok _ _ _ _ _ (set_parent_ok _ _ _ _ Hx)).
  rewrite (bind_ok _ _ _ _ _ (load_ok _ _ _ Hm1)).
  rewrite bool_decide_eq_false_2 by (unfold len; lia).
  unfold bind at 1. unfold slice at 1. case_bool_decide as Hfront; [|done].
  unfold ret. unfold bind at 1. unfold slice at 1.
  by rewrite bool_decide_eq_false_2 by lia.
Qed.

Lemma insertItemAtIndex_negative_witness :
  insertItemAtIndex (Some 1%positive) (-1) (Some 5%positive) scenario_heap = Panic.
Proof.
  by apply (insertItemAtIndex_negative scenario_heap 1%positive _ (-1)%Z
              (Some 5%positive) eq_refl).
Defined.

(** ** A [nil] item *)

(** X5. [Append] and [Prepend] test the kind of the receiver before they
    touch the item: with a [nil] item they return false, the heap unchanged,
    on a receiver that is not of Submenu kind, and panic on a Submenu
    receiver; [insertItemAtIndex] with a [nil] item returns false for an
    index beyond the children and panics for every other index. *)
Theorem nil_item (h : heap) (m : loc) (nm : MenuItem) :
  h !! m = Some nm →
  (Type__ nm ≠ SubmenuType →
     Append (Some m) nil_ptr h = Ok false h ∧ Prepend (Some m) nil_ptr h = Ok false h)
  ∧ (Type__ nm = SubmenuType →
     Append (Some m) nil_ptr h = Panic ∧ Prepend (Some m) nil_ptr h = Panic)
  ∧ (∀ index, (index > len (SubMenu_ nm))%Z →
     insertItemAtIndex (Some m) index nil_ptr h = Ok false h)
  ∧ (∀ index, (index ≤ len (SubMenu_ nm))%Z →
     insertItemAtIndex (Some m) index nil_ptr h = Panic).
Proof.
  intros Hm. split; [|split; [|split]].
  - intros Hty. split; [by eapply Append_not_submenu|by eapply Prepend_not_submenu].
  - intros Hty. unfold Append, Prepend.
    rewrite !(bind_ok _ _ _ _ _ (isSubMenu_ok _ _ _ Hm)).
    by rewrite bool_decide_eq_true_2.
  - intros index Hi. by eapply insertItemAtIndex_out_of_bounds.
  - intros index Hi. unfold insertItemAtIndex.
    rewrite (bind_ok _ _ _ _ _ (load_ok _ _ _ Hm)).
    by rewrite bool_decide_eq_false_2 by lia.
Qed.

Lemma nil_item_witness :
  Append (Some 2%positive) nil_ptr scenario_heap = Ok false scenario_heap
  ∧ Append (Some 1%positive) nil_ptr scenario_heap = Panic
  ∧ insertItemAtIndex (Some 1%positive) 3 nil_ptr scenario_heap = Ok false scenario_heap
  ∧ insertItemAtIndex (Some 1%positive) 2 nil_ptr scenario_heap = Panic.
Proof.
  destruct (nil_item scenario_heap 2%positive _ eq_refl) as (Htext & _).
  destruct (nil_item scenario_heap 1%positive _ eq_refl) as (_ & Hsub & Hout & Hin).
  split; [apply Htext; simpl; discriminate|].
  split; [by apply Hsub|].
  split; [by apply Hout|].
  apply Hin. vm_compute. discriminate.
Defined.

(** ** The constructors of leaves *)

Lemma alloc_fresh (n : MenuItem) (h : heap) :
  ∃ r, alloc n h = Ok (Some r) (<[r := n]> h) ∧ h !! r = None.
Proof.
  exists (fresh (dom h)). split; [done|]. apply not_elem_of_dom, is_fresh.
Qed.

(** A struct without parent and not of Submenu kind takes no child and no
    sibling. *)
Lemma leaf_refuses (h : heap) r n x :
  h !! r = Some n → Type__ n ≠ SubmenuType → parent n = None →
  Append (Some r) x h = Ok false h ∧ Prepend (Some r) x h = Ok false h
  ∧ InsertAfter (Some r) x h = Ok false h ∧ InsertBefore (Some r) x h = Ok false h.
Proof.
  intros Hr Hty Hroot.
  split; [by eapply Append_not_submenu|]. split; [by eapply Prepend_not_submenu|].
  by apply (Insert_root h r n x).
Qed.

(** X6. [Text], [Separator], [Radio] and [Checkbox] return a pointer to a new
    struct, at a location the heap did not use, of the kind of the
    constructor, with the id, label, accelerator and checked state given,
    without children or parent, and change no other struct; on the struct
    returned [Append], [Prepend], [InsertAfter] and [InsertBefore] return
    false and write nothing. *)
Theorem leaf_constructors (h : heap) (label id : string) (flag : bool)
    (accelerator : option Accelerator) (x : ptr) :
  let built (c : M ptr) (kind : Type_) (id' label' : string) (checked : bool)
            (acc : option Accelerator) :=
    ∃ r h' n,
      c h = Ok (Some r) h' ∧ h !! r = None ∧ h' !! r = Some n
      ∧ (∀ l, l ≠ r → h' !! l = h !! l)
      ∧ Type__ n = kind ∧ ID n = id' ∧ Label n = label'
      ∧ Checked n = checked ∧ Accelerator_ n = acc
      ∧ Disabled n = false ∧ Hidden n = false
      ∧ SubMenu_ n = [] ∧ parent n = nil_ptr
      ∧ Append (Some r) x h' = Ok false h' ∧ Prepend (Some r) x h' = Ok false h'
      ∧ InsertAfter (Some r) x h' = Ok false h'
      ∧ InsertBefore (Some r) x h' = Ok false h' in
  built (Text label id accelerator) TextType id label false accelerator
  ∧ built Separator SeparatorType "" "" false None
  ∧ built (Radio label id flag accelerator) RadioType id label flag accelerator
  ∧ built (Checkbox label id flag accelerator) CheckboxType id label flag accelerator.
Proof.
  intros built.
  assert (∀ n,
    Type__ n ≠ SubmenuType → parent n = None → SubMenu_ n = [] →
    Disabled n = false → Hidden n = false →
    built (alloc n) (Type__ n) (ID n) (Label n) (Checked n) (Accelerator_ n)) as Hbuilt.
  { intros n Hty Hroot Hkids Hdis Hhid.
    destruct (alloc_fresh n h) as (r & Hrun & Hfresh).
    exists r, (<[r := n]> h), n. split; [done|]. split; [done|].
    split; [apply lookup_insert_eq|].
    split; [by intros l Hl; rewrite lookup_insert_ne|].
    do 9 (split; [done|]).
    by apply (leaf_refuses _ r n x); [apply lookup_insert_eq|..]. }
  split; [|split; [|split]]; by apply Hbuilt.
Qed.

(** ** Round trips through [Prepend] *)

Lemma Prepend_heap (h : heap) m nm x nx :
  h !! m = Some nm → h !! x = Some nx → Type__ nm = SubmenuType →
  ∃ h1 nm1 nx1,
    Prepend (Some m) (Some x) h = Ok true h1
    ∧ h1 !! m = Some nm1 ∧ h1 !! x = Some nx1
    ∧ SubMenu_ nm1 = Some x :: SubMenu_ nm ∧ ID nm1 = ID nm ∧ ID nx1 = ID nx
    ∧ <[m := with_SubMenu (SubMenu_ nm) nm1]> h1 = <[x := with_parent (Some m) nx]> h.
Proof.
  intros Hm Hx Hty.
  destruct (Prepend_submenu h m nm x nx Hm Hx Hty) as (nm0 & Hm0 & Hs0 & Hrun).
  pose proof (attached_lookup h m x nm nx nm0 (Some x :: SubMenu_ nm) Hm Hx Hm0) as Hlook.
  eexists _, _, _. split; [exact Hrun|].
  split; [by rewrite Hlook, Hm|]. split; [by rewrite Hlook, Hx|].
  split; [unfold attach_node; simpl; by rewrite decide_True|].
  split; [done|]. split; [done|].
  rewrite insert_insert_eq. apply map_eq. intros l.
  destruct (decide (l = m)) as [->|Hlm].
  - rewrite lookup_insert_eq. unfold attach_node.
    destruct (decide (m = x)) as [<-|Hmx].
    + rewrite lookup_insert_eq. by assert (nx = nm) as -> by congruence.
    + rewrite lookup_insert_ne by done. rewrite Hm. by destruct nm.
  - by rewrite lookup_insert_ne.
Qed.

(** X7. After [m.Prepend(x)] on a Submenu receiver, the item is the first one
    that the searches from [m] meet below [m]: [m.getByID] for the id of [x]
    returns [x], unless [m] has that id itself, and [m.removeByID] for the id
    of [x] returns true and takes [x] out again, which leaves the heap as it
    was before [Prepend] but for the parent of [x], still [m].  Neither
    search looks further, whatever is below [m]. *)
Theorem Prepend_round_trip (h : heap) (m x : loc) (nm nx : MenuItem) :
  h !! m = Some nm → h !! x = Some nx → Type__ nm = SubmenuType →
  ∃ h1,
    Prepend (Some m) (Some x) h = Ok true h1
    ∧ (ID nm ≠ ID nx → ∀ fuel, 2 ≤ fuel →
         getByID fuel (Some m) (ID nx) h1 = Ok (Some x) h1)
    ∧ (∀ fuel, 1 ≤ fuel →
         removeByID fuel (Some m) (ID nx) h1
         = Ok true (<[x := with_parent (Some m) nx]> h)).
Proof.
  intros Hm Hx Hty.
  destruct (Prepend_heap h m nm x nx Hm Hx Hty)
    as (h1 & nm1 & nx1 & Hrun & Hm1 & Hx1 & Hs1 & Hidm & Hidx & Hback).
  exists h1. split; [exact Hrun|]. split.
  - intros Hne [|[|fuel]] Hfuel; [lia..|].
    cbn [getByID]. rewrite (bind_ok _ _ _ _ _ (load_ok _ _ _ Hm1)).
    rewrite bool_decide_eq_false_2 by congruence.
    rewrite Hs1. cbn [getByID_range getByID].
    unfold bind at 1. rewrite (bind_ok _ _ _ _ _ (load_ok _ _ _ Hx1)).
    by rewrite bool_decide_eq_true_2.
  - intros [|fuel] Hfuel; [lia|].
    cbn [removeByID]. rewrite (bind_ok _ _ _ _ _ (load_ok _ _ _ Hm1)).
    rewrite Hs1. cbn [removeByID_range].
    rewrite (bind_ok _ _ _ _ _ (load_ok _ _ _ Hx1)).
    rewrite bool_decide_eq_true_2 by done.
    rewrite (bind_ok _ _ _ _ _ (load_ok _ _ _ Hm1)). rewrite Hs1.
    rewrite (bind_ok _ _ _ _ _ (slice_prefix _ 0 _ (Nat.le_0_l _))).
    change (0 + 1)%Z with (Z.of_nat 1).
    assert (1 ≤ length (Some x :: SubMenu_ nm)) as Hone by (simpl; lia).
    rewrite (bind_ok _ _ _ _ _ (slice_suffix _ 1 _ Hone)).
    rewrite (bind_ok _ _ _ _ _ (set_SubMenu_ok _ _ _ _ Hm1)).
    unfold ret. f_equal. exact Hback.
Qed.

(** [C.Prepend(E)] in the scenario tree, then the two searches for ["e"]
    from [C]. *)
Lemma Prepend_round_trip_witness :
  ∃ h1, Prepend (Some 3%positive) (Some 5%positive) scenario_heap = Ok true h1
        ∧ getByID 2 (Some 3%positive) "e" h1 = Ok (Some 5%positive) h1
        ∧ removeByID 1 (Some 3%positive) "e" h1
          = Ok true (<[5%positive := item "e" TextType [] (Some 3%positive)]> scenario_heap).
Proof.
  destruct (Prepend_round_trip scenario_heap 3%positive 5%positive _ _
              eq_refl eq_refl eq_refl) as (h1 & Hrun & Hget & Hremove).
  exists h1. split; [exact Hrun|]. split.
  - apply Hget; [simpl; discriminate|lia].
  - apply Hremove. lia.
Defined.

(** ** Inserting twice beside the same target *)

Lemma attach_node_SubMenu (m x : loc) (s : list ptr) (n : MenuItem) :
  SubMenu_ (attach_node m x s m n) = s.
Proof. unfold attach_node. simpl. by rewrite decide_True. Qed.

(** The heap after an insertion beside a target found at [i], struct by
    struct. *)
Lemma Insert_found_lookup (h : heap) t nt p np x nx (i : nat) :
  h !! t = Some nt → parent nt = Some p →
  h !! p = Some np → Type__ np = SubmenuType →
  SubMenu_ np !! i = Some (Some t) →
  (∀ j, j < i → SubMenu_ np !! j ≠ Some (Some t)) →
  h !! x = Some nx →
  (∃ h1, InsertAfter (Some t) (Some x) h = Ok true h1
     ∧ ∀ a, h1 !! a =
            attach_node p x (take (S i) (SubMenu_ np) ++ Some x :: drop (S i) (SubMenu_ np)) a
              <$> h !! a)
  ∧ (∃ h1, InsertBefore (Some t) (Some x) h = Ok true h1
     ∧ ∀ a, h1 !! a =
            attach_node p x (take i (SubMenu_ np) ++ Some x :: drop i (SubMenu_ np)) a
              <$> h !! a).
Proof.
  intros Ht Hpar Hp Hty Hi Hfirst Hx.
  destruct (insertNewItem_found h p np (Some t) x nx i Hp Hty Hi Hfirst Hx)
    as (np1 & Hp1 & Hafter & Hbefore).
  destruct (Insert_child h t nt p (Some x) Ht Hpar) as [-> ->].
  split; eexists; (split; [eassumption|]); by apply attached_lookup with (nm := np) (nx := nx).
Qed.

(** X8. Let [i] be the first index holding [t] among the children [l] of its
    parent, of Submenu kind.  [t.InsertAfter(x)] followed by
    [t.InsertAfter(y)] both return true and leave the children
    [l[:i+1] ++ [y, x] ++ l[i+1:]]: the later item is the nearer to [t].
    [t.InsertBefore(x)] followed by [t.InsertBefore(y)], for [x] other than
    [t], both return true and leave [l[:i] ++ [x, y] ++ l[i:]]: again the
    later item is the nearer to [t]. *)
Theorem Insert_twice (h : heap) (t p x y : loc) (nt np nx ny : MenuItem) (i : nat) :
  h !! t = Some nt → parent nt = Some p →
  h !! p = Some np → Type__ np = SubmenuType →
  SubMenu_ np !! i = Some (Some t) →
  (∀ j, j < i → SubMenu_ np !! j ≠ Some (Some t)) →
  h !! x = Some nx → h !! y = Some ny →
  (∃ h1 h2 np2,
     InsertAfter (Some t) (Some x) h = Ok true h1
     ∧ InsertAfter (Some t) (Some y) h1 = Ok true h2
     ∧ h2 !! p = Some np2
     ∧ SubMenu_ np2 =
       take (S i) (SubMenu_ np) ++ Some y :: Some x :: drop (S i) (SubMenu_ np))
  ∧ (x ≠ t →
     ∃ h1 h2 np2,
       InsertBefore (Some t) (Some x) h = Ok true h1
       ∧ InsertBefore (Some t) (Some y) h1 = Ok true h2
       ∧ h2 !! p = Some np2
       ∧ SubMenu_ np2 =
         take i (SubMenu_ np) ++ Some x :: Some y :: drop i (SubMenu_ np)).
Proof.
  intros Ht Hpar Hp Hty Hi Hfirst Hx Hy.
  pose proof (lookup_lt_Some _ _ _ Hi) as Hlt.
  destruct (Insert_found_lookup h t nt p np x nx i Ht Hpar Hp Hty Hi Hfirst Hx)
    as [(hA & HrunA & HlookA) (hB & HrunB & HlookB)].
  assert (∀ s, parent (attach_node p x s t nt) = Some p) as Hpart.
  { intros s. unfold attach_node. simpl. by case_decide. }
  split.
  - set (s1 := take (S i) (SubMenu_ np) ++ Some x :: drop (S i) (SubMenu_ np)) in *.
    assert (length (take (S i) (SubMenu_ np)) = S i) as Hlen by (rewrite length_take; lia).
    assert (hA !! t = Some (attach_node p x s1 t nt)) as Ht1 by (by rewrite HlookA, Ht).
    assert (hA !! p = Some (attach_node p x s1 p np)) as Hp1 by (by rewrite HlookA, Hp).
    assert (hA !! y = Some (attach_node p x s1 y ny)) as Hy1 by (by rewrite HlookA, Hy).
    pose proof (attach_node_SubMenu p x s1 np) as Hs1.
    destruct (Insert_found_lookup hA t (attach_node p x s1 t nt) p
                (attach_node p x s1 p np) y (attach_node p x s1 y ny) i
                Ht1 (Hpart s1) Hp1 Hty)
      as [(h2 & Hrun2 & Hlook2) _]; [| |exact Hy1|].
    { rewrite Hs1. subst s1. rewrite lookup_app_l by lia. by rewrite lookup_take_lt by lia. }
    { intros j Hj. rewrite Hs1. subst s1. rewrite lookup_app_l by lia.
      rewrite lookup_take_lt by lia. by apply Hfirst. }
    eexists hA, h2, _. split; [exact HrunA|]. split; [exact Hrun2|].
    split; [by rewrite Hlook2, Hp1|].
    rewrite attach_node_SubMenu, Hs1. subst s1.
    rewrite take_app_length' by done. by rewrite drop_app_length' by done.
  - intros Hxt.
    set (s1 := take i (SubMenu_ np) ++ Some x :: drop i (SubMenu_ np)) in *.
    assert (length (take i (SubMenu_ np)) = i) as Hlen by (rewrite length_take; lia).
    assert (hB !! t = Some (attach_node p x s1 t nt)) as Ht1 by (by rewrite HlookB, Ht).
    assert (hB !! p = Some (attach_node p x s1 p np)) as Hp1 by (by rewrite HlookB, Hp).
    assert (hB !! y = Some (attach_node p x s1 y ny)) as Hy1 by (by rewrite HlookB, Hy).
    pose proof (attach_node_SubMenu p x s1 np) as Hs1.
    assert (s1 = (take i (SubMenu_ np) ++ [Some x]) ++ drop i (SubMenu_ np)) as Hs1'.
    { subst s1. by rewrite <- app_assoc. }
    assert (length (take i (SubMenu_ np) ++ [Some x]) = S i) as Hlen'
      by (rewrite length_app, Hlen; simpl; lia).
    destruct (Insert_found_lookup hB t (attach_node p x s1 t nt) p
                (attach_node p x s1 p np) y (attach_node p x s1 y ny) (S i)
                Ht1 (Hpart s1) Hp1 Hty)
      as [_ (h2 & Hrun2 & Hlook2)]; [| |exact Hy1|].
    { rewrite Hs1, Hs1'. rewrite lookup_app_r by lia.
      rewrite Hlen', Nat.sub_diag. by rewrite lookup_drop, Nat.add_0_r. }
    { intros j Hj. rewrite Hs1. subst s1.
      destruct (decide (j < i)) as [Hji|Hji].
      - rewrite lookup_app_l by lia. rewrite lookup_take_lt by lia. by apply Hfirst.
      - assert (j = i) as -> by lia. rewrite lookup_app_r by lia.
        rewrite Hlen, Nat.sub_diag. simpl. congruence. }
    eexists hB, h2, _. split; [exact HrunB|]. split; [exact Hrun2|].
    split; [by rewrite Hlook2, Hp1|].
    rewrite attach_node_SubMenu, Hs1, Hs1'.
    rewrite take_app_length' by done. rewrite drop_app_length' by done.
    by rewrite <- app_assoc.
Qed.

(** Beside [B] in the scenario tree: [E] then [D] after it, and [E] then [D]
    before it. *)
Lemma Insert_twice_witness :
  (∃ h1 h2 np2,
     InsertAfter (Some 2%positive) (Some 5%positive) scenario_heap = Ok true h1
     ∧ InsertAfter (Some 2%positive) (Some 4%positive) h1 = Ok true h2
     ∧ h2 !! 1%positive = Some np2
     ∧ SubMenu_ np2 = [Some 2%positive; Some 4%positive; Some 5%positive; Some 3%positive])
  ∧ (∃ h1 h2 np2,
     InsertBefore (Some 2%positive) (Some 5%positive) scenario_heap = Ok true h1
     ∧ InsertBefore (Some 2%positive) (Some 4%positive) h1 = Ok true h2
     ∧ h2 !! 1%positive = Some np2
     ∧ SubMenu_ np2 = [Some 5%positive; Some 4%positive; Some 2%positive; Some 3%positive]).
Proof.
  destruct (Insert_twice scenario_heap 2%positive 1%positive 5%positive 4%positive
              _ _ _ _ 0 eq_refl eq_refl eq_refl eq_refl eq_refl
              ltac:(intros; lia) eq_refl eq_refl) as [Hafter Hbefore].
  split; [exact Hafter|]. apply Hbefore. discriminate.
Defined.

(** ** The other invariants *)

(** What the four insertions do to the heap, when they return true, is one
    thing: the item is attached somewhere among the children of a struct of
    Submenu kind. *)
Lemma Append_Prepend_outcome (h : heap) m x nm nx :
  h !! m = Some nm → h !! x = Some nx →
  (Append (Some m) (Some x) h = Ok false h
   ∨ ∃ h', Append (Some m) (Some x) h = Ok true h'
           ∧ attached_at h m x (length (SubMenu_ nm)) h')
  ∧ (Prepend (Some m) (Some x) h = Ok false h
     ∨ ∃ h', Prepend (Some m) (Some x) h = Ok true h' ∧ attached_at h m x 0 h').
Proof.
  intros Hm Hx. destruct (decide (Type__ nm = SubmenuType)) as [Hty|Hty].
  - destruct (Append_submenu h m nm x nx Hm Hx Hty) as (nm1 & Hm1 & _ & Happ).
    destruct (Prepend_submenu h m nm x nx Hm Hx Hty) as (nm1' & Hm1' & _ & Hpre).
    split; right; eexists; (split; [eassumption|]); exists nm;
      (split; [done|]); (split; [done|]); (split; [lia|]).
    + rewrite take_ge, drop_ge by lia. by eapply attached_lookup.
    + rewrite take_0, drop_0. by eapply attached_lookup.
  - split; left; [by eapply Append_not_submenu|by eapply Prepend_not_submenu].
Qed.

Lemma Insert_outcome (h : heap) t x nt nx :
  h !! t = Some nt → h !! x = Some nx →
  (∀ p, parent nt = Some p → is_Some (h !! p)) →
  (InsertAfter (Some t) (Some x) h = Ok false h
   ∨ ∃ p k h', parent nt = Some p ∧ InsertAfter (Some t) (Some x) h = Ok true h'
               ∧ attached_at h p x k h')
  ∧ (InsertBefore (Some t) (Some x) h = Ok false h
     ∨ ∃ p k h', parent nt = Some p ∧ InsertBefore (Some t) (Some x) h = Ok true h'
                 ∧ attached_at h p x k h').
Proof.
  intros Ht Hx Halloc. destruct (parent nt) as [p|] eqn:Hpar.
  2: { destruct (Insert_root h t nt (Some x) Ht Hpar) as [-> ->]. split; by left. }
  destruct (Halloc p eq_refl) as [np Hp].
  destruct (decide (Type__ np = SubmenuType)) as [Hty|Hty].
  2: { destruct (Insert_no_anchor h t p nt np (Some x) Ht Hpar Hp) as [-> ->];
         [by left|]. split; by left. }
  destruct (getItemIndex_range_cases (Some t) 0 (SubMenu_ np))
    as [[_ Hnot]|(i & _ & Hi & Hfirst)].
  { destruct (Insert_no_anchor h t p nt np (Some x) Ht Hpar Hp) as [-> ->];
      [by right|]. split; by left. }
  pose proof (lookup_lt_Some _ _ _ Hi) as Hlt.
  destruct (Insert_found_lookup h t nt p np x nx i Ht Hpar Hp Hty Hi Hfirst Hx)
    as [(hA & HrunA & HlookA) (hB & HrunB & HlookB)].
  split; right.
  - exists p, (S i), hA. split; [done|]. split; [done|]. exists np.
    split; [done|]. split; [done|]. split; [lia|done].
  - exists p, i, hB. split; [done|]. split; [done|]. exists np.
    split; [done|]. split; [done|]. split; [lia|done].
Qed.

Lemma I3_attached (h h' : heap) m x k :
  I3 h → attached_at h m x k h' → I3 h'.
Proof.
  intros HI3 (nm & Hm & Hty & _ & Hlook) p np' Hp' Hkids.
  rewrite Hlook in Hp'. destruct (h !! p) as [np|] eqn:Hp; [|done].
  injection Hp' as <-. unfold attach_node in *. simpl in *.
  destruct (decide (p = m)) as [->|Hpm]; [congruence|by apply (HI3 p)].
Qed.

Lemma NoDup_insert_between (s : list ptr) (k : nat) (x : ptr) :
  NoDup s → x ∉ s → NoDup (take k s ++ x :: drop k s).
Proof.
  intros Hnd Hx. rewrite <- Permutation_middle, take_drop. by apply NoDup_cons.
Qed.

Lemma I2_attached (h h' : heap) m x k :
  I2 h → (∀ q, ¬ child_of h x q) → attached_at h m x k h' → I2 h'.
Proof.
  intros HI2 Hfree (nm & Hm & Hty & _ & Hlook).
  assert (∀ p np', h' !! p = Some np' →
            ∃ np, h !! p = Some np
              ∧ ∀ a, a ∈ SubMenu_ np' ↔ a ∈ SubMenu_ np ∨ (p = m ∧ a = Some x)) as Hmem.
  { intros p np' Hp'. rewrite Hlook in Hp'. destruct (h !! p) as [np|] eqn:Hp; [|done].
    injection Hp' as <-. exists np. split; [done|]. intros a.
    unfold attach_node. simpl. destruct (decide (p = m)) as [->|Hpm]; [|tauto].
    rewrite elem_of_insert_between. assert (np = nm) as -> by congruence. tauto. }
  intros p np' Hp'. split.
  - rewrite Hlook in Hp'. destruct (h !! p) as [np|] eqn:Hp; [|done].
    injection Hp' as <-. unfold attach_node. simpl.
    destruct (HI2 p np Hp) as [Hnd _].
    destruct (decide (p = m)) as [->|Hpm]; [|done].
    assert (np = nm) as -> by congruence.
    apply NoDup_insert_between; [done|]. intros Hin. apply (Hfree m). by exists nm.
  - intros q nq' a Hq' Ha Ha'.
    destruct (Hmem p np' Hp') as (np & Hp & Hmp).
    destruct (Hmem q nq' Hq') as (nq & Hq & Hmq).
    apply Hmp in Ha. apply Hmq in Ha'.
    destruct Ha as [Ha|[-> ->]], Ha' as [Ha'|[-> Hax]].
    + destruct (HI2 p np Hp) as [_ Hcross]. by apply (Hcross q nq a).
    + subst a. destruct (Hfree p). by exists np.
    + destruct (Hfree q). by exists nq.
    + done.
Qed.

Lemma I2_I3_remove_child (h : heap) p np i :
  h !! p = Some np →
  (I2 h → I2 (remove_child p i h)) ∧ (I3 h → I3 (remove_child p i h)).
Proof.
  intros Hp. pose proof (remove_child_lookup h p np i Hp) as Hlook.
  assert (∀ q nq', remove_child p i h !! q = Some nq' →
            ∃ nq, h !! q = Some nq ∧ Type__ nq' = Type__ nq
              ∧ SubMenu_ nq' `sublist_of` SubMenu_ nq) as Hsub.
  { intros q nq' Hq'. rewrite Hlook in Hq'. destruct (h !! q) as [nq|] eqn:Hq; [|done].
    injection Hq' as <-. exists nq. split; [done|].
    case_decide; [|done]. split; [done|]. apply sublist_delete. }
  split.
  - intros HI2 q nq' Hq'. destruct (Hsub q nq' Hq') as (nq & Hq & _ & Hsl).
    destruct (HI2 q nq Hq) as [Hnd Hcross]. split; [by eapply sublist_NoDup|].
    intros r nr' a Hr' Ha Ha'. destruct (Hsub r nr' Hr') as (nr & Hr & _ & Hsl').
    apply (Hcross r nr a Hr).
    + exact (elem_of_sublist _ _ _ Ha Hsl).
    + exact (elem_of_sublist _ _ _ Ha' Hsl').
  - intros HI3 q nq' Hq' Hkids. destruct (Hsub q nq' Hq') as (nq & Hq & Hty & Hsl).
    rewrite Hty. apply (HI3 q nq Hq). intros Hnil. rewrite Hnil in Hsl.
    by apply sublist_nil_r in Hsl.
Qed.

Lemma removeByID_outcome (h : heap) t s fuel :
  shape h t → height t ≤ fuel →
  removeByID fuel (Some (root t)) s h = Ok false h
  ∨ ∃ p np i, h !! p = Some np
              ∧ removeByID fuel (Some (root t)) s h = Ok true (remove_child p i h).
Proof.
  intros Hshape Hfuel. rewrite (removeByID_spec h s t Hshape fuel Hfuel). unfold removal.
  pose proof (find_first_index (place_has_id s) (searched t)) as Hfind.
  destruct (find (place_has_id s) (searched t)) as [[[p i] c]|]; [|by left].
  destruct Hfind as (k & Hk & _).
  destruct (searched_in_heap h t Hshape p i c) as (np & Hp & _).
  { by eapply list_elem_of_lookup_2. }
  right. by exists p, np, i.
Qed.

(** X9. The five operations keep I3 (only a struct of Submenu kind has
    children), whatever the item: [Append], [Prepend], [InsertAfter] and
    [InsertBefore] give a child to a struct only after checking its kind, and
    [removeByID] only takes children away.  Each returns, in a heap that
    satisfies I3, when the structs it is given are in the heap (for the
    insertions beside [t], the parent recorded in [t] too) and, for
    [removeByID], when the heap below the receiver unfolds to a tree. *)
Theorem I3_preservation (h : heap) :
  I3 h →
  (∀ m x nm nx, h !! m = Some nm → h !! x = Some nx →
     returns_in I3 (Append (Some m) (Some x)) h
     ∧ returns_in I3 (Prepend (Some m) (Some x)) h)
  ∧ (∀ t x nt nx, h !! t = Some nt → h !! x = Some nx →
     (∀ p, parent nt = Some p → is_Some (h !! p)) →
     returns_in I3 (InsertAfter (Some t) (Some x)) h
     ∧ returns_in I3 (InsertBefore (Some t) (Some x)) h)
  ∧ (∀ t s fuel, shape h t → height t ≤ fuel →
     returns_in I3 (λ h, removeByID fuel (Some (root t)) s h) h).
Proof.
  intros HI3. unfold returns_in. split; [|split].
  - intros m x nm nx Hm Hx.
    destruct (Append_Prepend_outcome h m x nm nx Hm Hx)
      as [[Ha|(ha & Ha & Hatt)] [Hb|(hb & Hb & Hatt')]];
      split; eauto using I3_attached.
  - intros t x nt nx Ht Hx Halloc.
    destruct (Insert_outcome h t x nt nx Ht Hx Halloc)
      as [[Ha|(p & k & ha & _ & Ha & Hatt)] [Hb|(p' & k' & hb & _ & Hb & Hatt')]];
      split; eauto using I3_attached.
  - intros t s fuel Hshape Hfuel.
    destruct (removeByID_outcome h t s fuel Hshape Hfuel) as [Hr|(p & np & i & Hp & Hr)].
    + eauto.
    + eexists _, _. split; [exact Hr|]. by apply (I2_I3_remove_child h p np i Hp).
Qed.

Lemma I3_preservation_witness :
  returns_in I3 (Append (Some 3%positive) (Some 5%positive)) scenario_heap
  ∧ returns_in I3 (InsertBefore (Some 4%positive) (Some 2%positive)) scenario_heap
  ∧ returns_in I3 (λ h, removeByID 3 (Some 1%positive) "d1" h) scenario_heap.
Proof.
  destruct (I3_preservation scenario_heap (proj2 (proj2 scenario_heap_invariants)))
    as (Hattach & Hinsert & Hremove).
  split; [|split].
  - exact (proj1 (Hattach 3%positive 5%positive _ _ eq_refl eq_refl)).
  - refine (proj2 (Hinsert 4%positive 2%positive _ _ eq_refl eq_refl _)).
    intros p [= <-]. by eexists.
  - apply (Hremove scenario_tree "d1" 3).
    + repeat (constructor; try reflexivity).
    + simpl. lia.
Defined.

(** X10. [Prepend] keeps I2 (a struct is in at most one children list, at
    most once) when the item is in no children list beforehand, and
    [removeByID] keeps it in any case.  Each returns, in a heap that
    satisfies I2, under the conditions of X9.  [Prepend] puts the children
    in an array of their own; under I2 no two structs have a child in
    common, so the part of the array in which [removeByID] closes the gap
    belongs to one slice alone.  [Append], [InsertAfter] and [InsertBefore]
    store the item in the array of the receiver's slice, and are left out. *)
Theorem I2_Prepend_removeByID (h : heap) :
  I2 h →
  (∀ m x nm nx, h !! m = Some nm → h !! x = Some nx →
     (∀ q, ¬ child_of h x q) →
     returns_in I2 (Prepend (Some m) (Some x)) h)
  ∧ (∀ t s fuel, shape h t → height t ≤ fuel →
     returns_in I2 (λ h, removeByID fuel (Some (root t)) s h) h).
Proof.
  intros HI2. unfold returns_in. split.
  - intros m x nm nx Hm Hx Hfree.
    destruct (Append_Prepend_outcome h m x nm nx Hm Hx) as [_ [Hb|(hb & Hb & Hatt)]];
      eauto using I2_attached.
  - intros t s fuel Hshape Hfuel.
    destruct (removeByID_outcome h t s fuel Hshape Hfuel) as [Hr|(p & np & i & Hp & Hr)].
    + eauto.
    + eexists _, _. split; [exact Hr|]. by apply (I2_I3_remove_child h p np i Hp).
Qed.

Lemma I2_Prepend_removeByID_witness :
  returns_in I2 (Prepend (Some 3%positive) (Some 5%positive)) scenario_heap
  ∧ returns_in I2 (λ h, removeByID 3 (Some 1%positive) "d1" h) scenario_heap.
Proof.
  destruct (I2_Prepend_removeByID scenario_heap (proj1 (proj2 scenario_heap_invariants)))
    as (Hattach & Hremove).
  assert (∀ q, ¬ child_of scenario_heap 5%positive q) as Hfree.
  { assert (map_Forall (λ (q : loc) (nq : MenuItem), Some 5%positive ∈ SubMenu_ nq → False)
              scenario_heap) as Hall by compute_done.
    intros q Hq. exact (child_of_map _ _ (λ _, False) Hall q Hq). }
  split.
  - exact (Hattach 3%positive 5%positive _ _ eq_refl eq_refl Hfree).
  - apply (Hremove scenario_tree "d1" 3).
    + repeat (constructor; try reflexivity).
    + simpl. lia.
Defined.

(** ** [Append] against [Prepend] *)

Lemma Append_Prepend_lookup (h : heap) m x nm nx :
  h !! m = Some nm → h !! x = Some nx → Type__ nm = SubmenuType →
  (∃ h1, Append (Some m) (Some x) h = Ok true h1
         ∧ ∀ a, h1 !! a = attach_node m x (SubMenu_ nm ++ [Some x]) a <$> h !! a)
  ∧ (∃ h1, Prepend (Some m) (Some x) h = Ok true h1
           ∧ ∀ a, h1 !! a = attach_node m x (Some x :: SubMenu_ nm) a <$> h !! a).
Proof.
  intros Hm Hx Hty.
  destruct (Append_submenu h m nm x nx Hm Hx Hty) as (nm1 & Hm1 & _ & Happ).
  destruct (Prepend_submenu h m nm x nx Hm Hx Hty) as (nm1' & Hm1' & _ & Hpre).
  split; eexists; (split; [eassumption|]); by eapply attached_lookup.
Qed.

(** X11. On a Submenu receiver [m] with children [l], [m.Append(x)] followed
    by [m.Prepend(y)] and [m.Prepend(y)] followed by [m.Append(x)] all return
    true, and either order ends in a heap where the children of [m] are
    [[y] ++ l ++ [x]] and both items have parent [m]; this also holds when
    [x], [y] and [m] are not three different structs. *)
Theorem Append_Prepend_commute (h : heap) (m x y : loc) (nm nx ny : MenuItem) :
  h !! m = Some nm → h !! x = Some nx → h !! y = Some ny →
  Type__ nm = SubmenuType →
  ∃ h1 h1' h2 h2',
    Append (Some m) (Some x) h = Ok true h1
    ∧ Prepend (Some m) (Some y) h1 = Ok true h2
    ∧ Prepend (Some m) (Some y) h = Ok true h1'
    ∧ Append (Some m) (Some x) h1' = Ok true h2'
    ∧ holds_child h2 m x (Some y :: SubMenu_ nm ++ [Some x])
    ∧ holds_child h2 m y (Some y :: SubMenu_ nm ++ [Some x])
    ∧ holds_child h2' m x (Some y :: SubMenu_ nm ++ [Some x])
    ∧ holds_child h2' m y (Some y :: SubMenu_ nm ++ [Some x]).
Proof.
  intros Hm Hx Hy Hty.
  destruct (Append_Prepend_lookup h m x nm nx Hm Hx Hty) as [(h1 & Hrun1 & Hlook1) _].
  destruct (Append_Prepend_lookup h m y nm ny Hm Hy Hty) as [_ (h1' & Hrun1' & Hlook1')].
  set (sa := SubMenu_ nm ++ [Some x]) in *. set (sp := Some y :: SubMenu_ nm) in *.
  assert (h1 !! m = Some (attach_node m x sa m nm)) as Hm1 by (by rewrite Hlook1, Hm).
  assert (h1 !! y = Some (attach_node m x sa y ny)) as Hy1 by (by rewrite Hlook1, Hy).
  assert (h1' !! m = Some (attach_node m y sp m nm)) as Hm1' by (by rewrite Hlook1', Hm).
  assert (h1' !! x = Some (attach_node m y sp x nx)) as Hx1' by (by rewrite Hlook1', Hx).
  destruct (Append_Prepend_lookup h1 m y _ _ Hm1 Hy1 Hty) as [_ (h2 & Hrun2 & Hlook2)].
  destruct (Append_Prepend_lookup h1' m x _ _ Hm1' Hx1' Hty) as [(h2' & Hrun2' & Hlook2') _].
  rewrite attach_node_SubMenu in Hlook2, Hlook2'.
  assert (∀ a na, h !! a = Some na →
            h2 !! a = Some (attach_node m y (Some y :: sa) a (attach_node m x sa a na)))
    as Hfinal.
  { intros a na Ha. by rewrite Hlook2, Hlook1, Ha. }
  assert (∀ a na, h !! a = Some na →
            h2' !! a = Some (attach_node m x (sp ++ [Some x]) a (attach_node m y sp a na)))
    as Hfinal'.
  { intros a na Ha. by rewrite Hlook2', Hlook1', Ha. }
  exists h1, h1', h2, h2'.
  split; [done|]. split; [done|]. split; [done|]. split; [done|].
  split; [|split; [|split]]; eexists _, _.
  - split; [by apply Hfinal|]. split; [by rewrite attach_node_SubMenu|].
    split; [by apply Hfinal|]. unfold attach_node. simpl. by repeat case_decide.
  - split; [by apply Hfinal|]. split; [by rewrite attach_node_SubMenu|].
    split; [by apply Hfinal|]. unfold attach_node. simpl. by rewrite decide_True.
  - split; [by apply Hfinal'|]. split; [by rewrite attach_node_SubMenu|].
    split; [by apply Hfinal'|]. unfold attach_node. simpl. by rewrite decide_True.
  - split; [by apply Hfinal'|]. split; [by rewrite attach_node_SubMenu|].
    split; [by apply Hfinal'|]. unfold attach_node. simpl. by repeat case_decide.
Qed.

Lemma Append_Prepend_commute_witness :
  ∃ h1 h1' h2 h2',
    Append (Some 3%positive) (Some 5%positive) scenario_heap = Ok true h1
    ∧ Prepend (Some 3%positive) (Some 2%positive) h1 = Ok true h2
    ∧ Prepend (Some 3%positive) (Some 2%positive) scenario_heap = Ok true h1'
    ∧ Append (Some 3%positive) (Some 5%positive) h1' = Ok true h2'
    ∧ holds_child h2 3%positive 5%positive [Some 2%positive; Some 4%positive; Some 5%positive]
    ∧ holds_child h2' 3%positive 2%positive [Some 2%positive; Some 4%positive; Some 5%positive].
Proof.
  destruct (Append_Prepend_commute scenario_heap 3%positive 5%positive 2%positive _ _ _
              eq_refl eq_refl eq_refl eq_refl)
    as (h1 & h1' & h2 & h2' & H1 & H2 & H3 & H4 & Hx & _ & _ & Hy).
  exists h1, h1', h2, h2'. by repeat split.
Defined.

(** ** The searches on any heap *)

Lemma bind_Ok_inv {A B} (c : M A) (k : A → M B) (h h' : heap) (b : B) :
  bind c k h = Ok b h' → ∃ a h1, c h = Ok a h1 ∧ k a h1 = Ok b h'.
Proof. unfold bind. destruct (c h) as [a h1| |]; [|done..]. intros Hk. by exists a, h1. Qed.

Lemma load_Ok_inv (p : ptr) (h h' : heap) (n : MenuItem) :
  load p h = Ok n h' → h' = h ∧ ∃ l, p = Some l ∧ h !! l = Some n.
Proof.
  unfold load. destruct p as [l|]; [|done]. destruct (h !! l) as [n'|] eqn:Hl; [|done].
  intros [= -> ->]. split; [done|]. by exists l.
Qed.

Lemma getByID_range_sound (rec : ptr → M ptr) (s : string) (h : heap) (items : list ptr) :
  (∀ item r h', rec item h = Ok r h' →
     h' = h ∧ ∀ l, r = Some l → ∃ n, h !! l = Some n ∧ ID n = s) →
  ∀ r h', getByID_range rec items h = Ok r h' →
    h' = h ∧ ∀ l, r = Some l → ∃ n, h !! l = Some n ∧ ID n = s.
Proof.
  intros Hrec. induction items as [|item rest IH]; intros r h' Hrun.
  - injection Hrun as <- <-. by split.
  - cbn [getByID_range] in Hrun.
    apply bind_Ok_inv in Hrun as (r1 & h1 & Hitem & Hrest).
    destruct (Hrec item r1 h1 Hitem) as [-> Hr1].
    destruct r1 as [l1|].
    + injection Hrest as <- <-. by split.
    + by apply IH.
Qed.

(** X12. On any heap, a tree or not, and with any fuel: when [m.getByID(s)]
    returns, the heap is the one it started from, a pointer returned other
    than [nil] is to a struct of the heap whose id is [s], and the pointer
    returned is [m] itself when the id of [m] is [s]. *)
Theorem getByID_sound (fuel : nat) (m : ptr) (s : string) (h h' : heap) (r : ptr) :
  getByID fuel m s h = Ok r h' →
  h' = h
  ∧ (∀ l, r = Some l → ∃ n, h !! l = Some n ∧ ID n = s)
  ∧ (∀ l n, m = Some l → h !! l = Some n → ID n = s → r = m).
Proof.
  revert m h' r. induction fuel as [|fuel IH]; intros m h' r Hrun; [done|].
  cbn [getByID] in Hrun. apply bind_Ok_inv in Hrun as (nm & h1 & Hload & Hrest).
  apply load_Ok_inv in Hload as [-> (lm & -> & Hm)].
  case_bool_decide as Hid.
  - injection Hrest as <- <-. split; [done|]. split; [|done].
    intros l [= <-]. by exists nm.
  - apply getByID_range_sound with (s := s) in Hrest as [-> Hr].
    + split; [done|]. split; [done|]. intros l n [= <-] Hl Hidn. congruence.
    + intros item r1 h1 Hitem. destruct (IH item h1 r1 Hitem) as (-> & Hr1 & _). by split.
Qed.

(** On the heap of two submenus that are each other's child, the search for
    ["b"] from the first returns the second. *)
Lemma getByID_sound_witness :
  ∃ n, cyclic_heap !! 2%positive = Some n ∧ ID n = "b".
Proof.
  destruct (getByID_sound 2 (Some 1%positive) "b" cyclic_heap cyclic_heap (Some 2%positive))
    as (_ & Hr & _).
  - vm_compute. reflexivity.
  - exact (Hr 2%positive eq_refl).
Defined.

Lemma removeByID_range_sound (rec : ptr → M bool) (s : string) (h : heap)
    (m : loc) (nm : MenuItem) :
  h !! m = Some nm →
  (∀ item b h', rec item h = Ok b h' →
     (b = false → h' = h)
     ∧ (b = true → ∃ p np i c nc,
          h !! p = Some np ∧ SubMenu_ np !! i = Some (Some c)
          ∧ h !! c = Some nc ∧ ID nc = s ∧ h' = remove_child p i h)) →
  ∀ items index b h',
    drop index (SubMenu_ nm) = items →
    removeByID_range rec (Some m) s (Z.of_nat index) items h = Ok b h' →
    (b = false → h' = h)
    ∧ (b = true → ∃ p np i c nc,
         h !! p = Some np ∧ SubMenu_ np !! i = Some (Some c)
         ∧ h !! c = Some nc ∧ ID nc = s ∧ h' = remove_child p i h).
Proof.
  intros Hm Hrec. induction items as [|item rest IH]; intros index b h' Hdrop Hrun.
  - injection Hrun as <- <-. by split.
  - assert (SubMenu_ nm !! index = Some item) as Hi.
    { rewrite <- (Nat.add_0_r index), <- lookup_drop. by rewrite Hdrop. }
    assert (drop (S index) (SubMenu_ nm) = rest) as Hdrop'.
    { replace (S index) with (index + 1) by lia. by rewrite <- drop_drop, Hdrop. }
    assert (∀ b h', removeByID_range rec (Some m) s (Z.of_nat index + 1) rest h = Ok b h' →
              (b = false → h' = h)
              ∧ (b = true → ∃ p np i c nc,
                   h !! p = Some np ∧ SubMenu_ np !! i = Some (Some c)
                   ∧ h !! c = Some nc ∧ ID nc = s ∧ h' = remove_child p i h)) as Hnext.
    { intros b0 h0. replace (Z.of_nat index + 1)%Z with (Z.of_nat (S index)) by lia.
      by apply IH. }
    cbn [removeByID_range] in Hrun.
    apply bind_Ok_inv in Hrun as (ni & h1 & Hload & Hrun).
    apply load_Ok_inv in Hload as [-> (c & -> & Hc)].
    case_bool_decide as Hid.
    + pose proof (lookup_lt_Some _ _ _ Hi) as Hlt.
      rewrite (bind_ok _ _ _ _ _ (load_ok _ _ _ Hm)) in Hrun.
      rewrite (bind_ok _ _ _ _ _ (slice_prefix _ index _ (Nat.lt_le_incl _ _ Hlt))) in Hrun.
      replace (Z.of_nat index + 1)%Z with (Z.of_nat (S index)) in Hrun by lia.
      rewrite (bind_ok _ _ _ _ _ (slice_suffix _ (S index) _ Hlt)) in Hrun.
      rewrite (bind_ok _ _ _ _ _ (set_SubMenu_ok _ _ _ _ Hm)) in Hrun.
      injection Hrun as <- <-. split; [done|]. intros _.
      exists m, nm, index, c, ni. repeat split; try done.
      unfold remove_child. by rewrite Hm, delete_take_drop.
    + rewrite (bind_ok _ _ _ _ _ (isSubMenu_ok _ _ _ Hc)) in Hrun.
      destruct (bool_decide (Type__ ni = SubmenuType)); [|by apply Hnext].
      apply bind_Ok_inv in Hrun as (b1 & h1 & Hitem & Hrun).
      destruct (Hrec (Some c) b1 h1 Hitem) as [Hfalse Htrue].
      destruct b1.
      * injection Hrun as <- <-. by split.
      * rewrite (Hfalse eq_refl) in Hrun. by apply Hnext.
Qed.

Lemma removeByID_effect (fuel : nat) (m : ptr) (s : string) (h h' : heap) (b : bool) :
  removeByID fuel m s h = Ok b h' →
  (b = false → h' = h)
  ∧ (b = true → ∃ p np i c nc,
       h !! p = Some np ∧ SubMenu_ np !! i = Some (Some c)
       ∧ h !! c = Some nc ∧ ID nc = s ∧ h' = remove_child p i h).
Proof.
  revert m h' b. induction fuel as [|fuel IH]; intros m h' b Hrun; [done|].
  cbn [removeByID] in Hrun. apply bind_Ok_inv in Hrun as (nm & h1 & Hload & Hrun).
  apply load_Ok_inv in Hload as [-> (lm & -> & Hm)].
  apply (removeByID_range_sound _ s h lm nm Hm) with (index := 0) (items := SubMenu_ nm)
    in Hrun; [done| |done].
  intros item b1 h1 Hitem. exact (IH item h1 b1 Hitem).
Qed.

(** X13. On any heap, a tree or not, and with any fuel: when
    [m.removeByID(s)] returns false the heap is the one it started from; when
    it returns true, the children of one struct have lost the element at one
    index, and that element was a pointer to a struct with id [s].  In both
    cases no struct is added or dropped, and every struct is as it was apart
    from its children: no parent field, id or kind is written. *)
Theorem removeByID_sound (fuel : nat) (m : ptr) (s : string) (h h' : heap) (b : bool) :
  removeByID fuel m s h = Ok b h' →
  (b = false → h' = h)
  ∧ (b = true → ∃ p np np' i c nc,
       h !! p = Some np ∧ SubMenu_ np !! i = Some (Some c)
       ∧ h !! c = Some nc ∧ ID nc = s
       ∧ h' !! p = Some np' ∧ SubMenu_ np' = delete i (SubMenu_ np))
  ∧ (∀ l, h' !! l = None ↔ h !! l = None)
  ∧ (∀ l nl nl', h !! l = Some nl → h' !! l = Some nl' →
       with_SubMenu (SubMenu_ nl) nl' = nl).
Proof.
  intros Hrun. destruct (removeByID_effect fuel m s h h' b Hrun) as [Hf Ht].
  split; [done|]. destruct b.
  - destruct (Ht eq_refl) as (p & np & i & c & nc & Hp & Hi & Hc & Hid & ->).
    pose proof (remove_child_lookup h p np i Hp) as Hlook.
    split; [|split].
    + intros _. exists p, np, (with_SubMenu (delete i (SubMenu_ np)) np), i, c, nc.
      repeat split; try done.
      rewrite Hlook, Hp. simpl. by rewrite decide_True.
    + intros l. rewrite Hlook. by destruct (h !! l).
    + intros l nl nl' Hl Hl'. rewrite Hlook, Hl in Hl'. injection Hl' as <-.
      case_decide; by destruct nl.
  - rewrite (Hf eq_refl). split; [done|]. split; [done|].
    intros l nl nl' Hl Hl'. assert (nl' = nl) as -> by congruence. by destruct nl.
Qed.

(** On the heap of two submenus that are each other's child, removing ["a"]
    from the first takes it out of the children of the second. *)
Lemma removeByID_sound_witness :
  ∃ p np np' i c nc,
    cyclic_heap !! p = Some np ∧ SubMenu_ np !! i = Some (Some c)
    ∧ cyclic_heap !! c = Some nc ∧ ID nc = "a"
    ∧ <[2%positive := item "b" SubmenuType [] (Some 1%positive)]> cyclic_heap !! p = Some np'
    ∧ SubMenu_ np' = delete i (SubMenu_ np).
Proof.
  destruct (removeByID_sound 2 (Some 1%positive) "a" cyclic_heap
              (<[2%positive := item "b" SubmenuType [] (Some 1%positive)]> cyclic_heap) true)
    as (_ & Htrue & _).
  - vm_compute. reflexivity.
  - exact (Htrue eq_refl).
Defined.

(** ** Searching again after a removal *)

Lemma sum_list_with_le {A} (f g : A → nat) (l : list A) :
  Forall (λ k, f k ≤ g k) l → sum_list_with f l ≤ sum_list_with g l.
Proof. induction 1 as [|k l Hk _ IH]; simpl; lia. Qed.

Lemma sum_list_with_delete {A} (f : A → nat) (l : list A) (i : nat) (k : A) :
  l !! i = Some k → sum_list_with f (delete i l) + f k = sum_list_with f l.
Proof.
  revert i. induction l as [|a l IH]; intros [|i] Hi; simpl in *; try done.
  - injection Hi as ->. lia.
  - specialize (IH i Hi). lia.
Qed.

Lemma sum_list_with_delete_le {A} (f : A → nat) (l : list A) (i : nat) :
  sum_list_with f (delete i l) ≤ sum_list_with f l.
Proof.
  revert i. induction l as [|a l IH]; intros [|i]; simpl; try lia.
  specialize (IH i). lia.
Qed.

Lemma sum_list_with_fmap {A B} (f : B → nat) (g : A → B) (l : list A) :
  sum_list_with f (map g l) = sum_list_with (f ∘ g) l.
Proof. induction l as [|a l IH]; simpl; [done|]. by rewrite IH. Qed.

Lemma sum_list_with_lt {A} (f g : A → nat) (l : list A) (j : nat) (k : A) :
  Forall (λ k, f k ≤ g k) l → l !! j = Some k → f k < g k →
  sum_list_with f l < sum_list_with g l.
Proof.
  intros Hall. revert j. induction Hall as [|a l Ha Hall IH]; intros [|j] Hj Hlt;
    simpl in *; try done.
  - injection Hj as ->. pose proof (sum_list_with_le f g l Hall). lia.
  - specialize (IH j Hj Hlt). lia.
Qed.

Lemma sum_list_with_delete_lt {A} (f g : A → nat) (l : list A) (i j : nat) (k : A) :
  Forall (λ k, f k ≤ g k) l → l !! j = Some k → f k < g k →
  sum_list_with f (delete i l) < sum_list_with g l.
Proof.
  intros Hall Hj Hlt.
  pose proof (Forall_delete _ l i Hall) as Hall'.
  destruct (decide (i = j)) as [->|Hij].
  - pose proof (sum_list_with_le f g _ Hall').
    pose proof (sum_list_with_delete g l j k Hj). lia.
  - assert (∃ j', delete i l !! j' = Some k) as [j' Hj'].
    { destruct (decide (j < i)).
      - exists j. by rewrite list_lookup_delete_lt.
      - exists (pred j). rewrite list_lookup_delete_ge by lia.
        by replace (S (pred j)) with j by lia. }
    pose proof (sum_list_with_lt f g _ j' k Hall' Hj' Hlt).
    pose proof (sum_list_with_delete_le g l i). lia.
Qed.

Lemma root_prune p i t : root (prune p i t) = root t.
Proof. destruct t as [l n kids]. simpl. by case_decide. Qed.

Lemma ID_prune p i t : ID (content (prune p i t)) = ID (content t).
Proof. destruct t as [l n kids]. simpl. by case_decide. Qed.

Lemma shape_prune (h : heap) p np i t :
  h !! p = Some np → shape h t → shape (remove_child p i h) (prune p i t).
Proof.
  intros Hp. pose proof (remove_child_lookup h p np i Hp) as Hlook.
  induction t as [l n kids IH] using tree_ind'.
  intros Hshape. inversion Hshape as [? ? ? Hl Hkids Hsub]; subst.
  assert (Forall (shape (remove_child p i h)) (map (prune p i) kids)) as Hsub'.
  { apply Forall_fmap. rewrite Forall_forall in IH, Hsub |- *.
    intros k Hk. by apply IH, Hsub. }
  assert (map (λ k, Some (root k)) (map (prune p i) kids) = SubMenu_ n) as Hroots.
  { rewrite Hkids, map_map. apply map_ext. intros k. by rewrite root_prune. }
  cbn [prune]. destruct (decide (l = p)) as [->|Hlp].
  - constructor.
    + rewrite Hlook, Hl. simpl. by rewrite decide_True.
    + simpl. rewrite <- Hroots. symmetry. apply (list_fmap_delete (λ k, Some (root k))).
    + by apply Forall_delete.
  - constructor; [|done..]. rewrite Hlook, Hl. simpl. by rewrite decide_False.
Qed.

Lemma max_list_le (l : list nat) (n : nat) :
  Forall (λ x, x ≤ n) l → max_list l ≤ n.
Proof. induction 1 as [|x l Hx _ IH]; simpl; lia. Qed.

Lemma height_prune p i t : height (prune p i t) ≤ height t.
Proof.
  induction t as [l n kids IH] using tree_ind'.
  assert (Forall (λ x, x ≤ max_list (map height kids)) (map height (map (prune p i) kids)))
    as Hall.
  { rewrite map_map. apply Forall_fmap. rewrite Forall_forall in IH |- *.
    intros k Hk. simpl. pose proof (IH k Hk). pose proof (height_kid k kids Hk). lia. }
  cbn [prune]. case_decide; cbn [height]; apply le_n_S, max_list_le; [|done].
  assert (map height (delete i (map (prune p i) kids))
          = delete i (map height (map (prune p i) kids))) as ->
    by apply (list_fmap_delete height).
  by apply Forall_delete.
Qed.

Lemma count_prune_le s p i t : count_id s (prune p i t) ≤ count_id s t.
Proof.
  induction t as [l n kids IH] using tree_ind'.
  assert (sum_list_with (count_id s) (map (prune p i) kids)
          ≤ sum_list_with (count_id s) kids) as Hsum.
  { rewrite sum_list_with_fmap. by apply sum_list_with_le. }
  cbn [prune]. case_decide; cbn [count_id ID with_SubMenu]; [|lia].
  pose proof (sum_list_with_delete_le (count_id s) (map (prune p i) kids) i). lia.
Qed.

Lemma elem_of_walk (below : tree → list place) (l : loc) (ks : list tree) (e : place) :
  ∀ i0, e ∈ walk below l i0 ks →
  (∃ j k, ks !! j = Some k ∧ e = (l, i0 + j, k))
  ∨ (∃ j k, ks !! j = Some k ∧ e ∈ below k).
Proof.
  induction ks as [|k ks IH]; intros i0 He; cbn [walk] in He.
  - by apply elem_of_nil in He.
  - rewrite elem_of_cons, elem_of_app in He. destruct He as [->|[He|He]].
    + left. exists 0, k. by rewrite Nat.add_0_r.
    + right. by exists 0, k.
    + destruct (IH (S i0) He) as [(j & k' & Hj & ->)|(j & k' & Hj & He')].
      * left. exists (S j), k'. split; [done|]. f_equal. f_equal. lia.
      * right. by exists (S j), k'.
Qed.

Lemma elem_of_searched (t : tree) (e : place) :
  e ∈ searched t →
  (∃ j k, subtrees t !! j = Some k ∧ e = (root t, j, k))
  ∨ (∃ j k, subtrees t !! j = Some k ∧ e ∈ searched k).
Proof.
  destruct t as [l n kids]. rewrite searched_Node. intros He.
  destruct (elem_of_walk gate l kids e 0 He) as [Hhere|(j & k & Hj & Hin)]; [by left|].
  right. exists j, k. split; [done|]. unfold gate in Hin.
  case_bool_decide; [done|]. by apply elem_of_nil in Hin.
Qed.

Lemma count_prune_lt s p i c t :
  (p, i, c) ∈ searched t → ID (content c) = s →
  count_id s (prune p i t) < count_id s t.
Proof.
  intros Hin Hid. induction t as [l n kids IH] using tree_ind'.
  assert (Forall (λ k, (count_id s ∘ prune p i) k ≤ count_id s k) kids) as Hle.
  { apply Forall_forall. intros k _. apply count_prune_le. }
  assert (1 ≤ count_id s c) as Hc.
  { destruct c as [lc nc kc]. cbn [count_id]. simpl in Hid.
    rewrite bool_decide_eq_true_2 by done. lia. }
  cbn [prune count_id].
  destruct (elem_of_searched _ _ Hin) as [(j & k & Hj & [= <- <- <-])|(j & k & Hj & Hk)];
    cbn [subtrees root] in *.
  - rewrite decide_True by done. cbn [count_id ID with_SubMenu].
    assert (delete i (map (prune p i) kids) = map (prune p i) (delete i kids)) as ->
      by (symmetry; apply (list_fmap_delete (prune p i))).
    rewrite sum_list_with_fmap.
    pose proof (sum_list_with_le _ _ _ (Forall_delete _ kids i Hle)).
    pose proof (sum_list_with_delete (count_id s) kids i c Hj). lia.
  - assert (count_id s (prune p i k) < count_id s k) as Hlt.
    { rewrite Forall_lookup in IH. by apply (IH j k Hj). }
    destruct (decide (l = p)) as [->|Hlp]; cbn [count_id ID with_SubMenu].
    + assert (delete i (map (prune p i) kids) = map (prune p i) (delete i kids)) as ->
        by (symmetry; apply (list_fmap_delete (prune p i))).
      rewrite sum_list_with_fmap.
      pose proof (sum_list_with_delete_lt _ _ kids i j k Hle Hj Hlt). lia.
    + rewrite sum_list_with_fmap.
      pose proof (sum_list_with_lt _ _ kids j k Hle Hj Hlt). lia.
Qed.

Lemma count_zero_preorder s t :
  count_id s t = 0 → ∀ e, e ∈ preorder t → ID e.2 ≠ s.
Proof.
  induction t as [l n kids IH] using tree_ind'. cbn [count_id preorder].
  intros Hzero e He. case_bool_decide as Hid; [lia|].
  apply elem_of_cons in He as [->|He]; [done|].
  apply list_elem_of_In, in_concat in He as (es & Hes & He).
  apply in_map_iff in Hes as (k & <- & Hk).
  apply list_elem_of_In in Hk, He.
  rewrite Forall_forall in IH. apply (IH k Hk); [|done].
  assert (count_id s k ≤ sum_list_with (count_id s) kids); [|lia].
  apply list_elem_of_lookup in Hk as [j Hj].
  pose proof (sum_list_with_delete (count_id s) kids j k Hj). lia.
Qed.

Lemma searched_in_preorder (t : tree) p i c :
  (p, i, c) ∈ searched t → (root c, content c) ∈ preorder t.
Proof.
  induction t as [l n kids IH] using tree_ind'. intros Hin.
  assert (∀ k j, kids !! j = Some k → ∀ e, e ∈ preorder k → e ∈ preorder (Node l n kids))
    as Hsub.
  { intros k j Hj e He. cbn [preorder]. apply list_elem_of_further.
    apply list_elem_of_In, in_concat. exists (preorder k).
    split; [|by apply list_elem_of_In].
    apply in_map, list_elem_of_In. by eapply list_elem_of_lookup_2. }
  destruct (elem_of_searched _ _ Hin) as [(j & k & Hj & [= <- <- <-])|(j & k & Hj & Hk)];
    cbn [subtrees] in Hj.
  - apply (Hsub c i Hj). destruct c. cbn. apply list_elem_of_here.
  - apply (Hsub k j Hj). rewrite Forall_lookup in IH. by apply (IH j k Hj).
Qed.

Lemma find_none {A} (f : A → bool) (l : list A) :
  (∀ a, a ∈ l → f a = false) → find f l = None.
Proof.
  intros Hall. pose proof (find_first_index f l) as Hfind.
  destruct (find f l) as [a|]; [|done].
  destruct Hfind as (i & Hi & Hfa & _).
  rewrite Hall in Hfa; [done|]. by eapply list_elem_of_lookup_2.
Qed.

(** X14. Let the heap below [m] unfold to a tree in which no struct occurs
    twice and exactly one node has id [s].  When [m.removeByID(s)] has
    returned true, the id is gone from below [m]: in the heap it left,
    [m.getByID(s)] returns [nil] and a second [m.removeByID(s)] returns
    false, both without writing.  As no struct occurs twice, no two structs
    of the tree have a child in common, and closing the gap among the
    children of one moves no child of another. *)
Theorem removeByID_then_search (h h' : heap) (t : tree) (s : string) (fuel : nat) :
  shape h t → height t ≤ fuel →
  NoDup (map fst (preorder t)) →
  count_id s t = 1 →
  removeByID fuel (Some (root t)) s h = Ok true h' →
  getByID fuel (Some (root t)) s h' = Ok nil_ptr h'
  ∧ removeByID fuel (Some (root t)) s h' = Ok false h'.
Proof.
  intros Hshape Hfuel _ Hone Hrun.
  rewrite (removeByID_spec h s t Hshape fuel Hfuel) in Hrun. unfold removal in Hrun.
  pose proof (find_first_index (place_has_id s) (searched t)) as Hfind.
  destruct (find (place_has_id s) (searched t)) as [[[p i] c]|]; [|done].
  injection Hrun as <-. destruct Hfind as (k & Hk & Hid & _).
  apply bool_decide_eq_true in Hid. cbn [snd] in Hid.
  apply list_elem_of_lookup_2 in Hk.
  destruct (searched_in_heap h t Hshape p i c Hk) as (np & Hp & _).
  pose proof (shape_prune h p np i t Hp Hshape) as Hshape'.
  pose proof (height_prune p i t) as Hheight.
  pose proof (count_prune_lt s p i c t Hk Hid) as Hcount.
  assert (count_id s (prune p i t) = 0) as Hzero by lia.
  pose proof (count_zero_preorder s _ Hzero) as Hnone.
  rewrite <- (root_prune p i t). split.
  - rewrite (getByID_spec _ s _ Hshape' fuel) by lia.
    rewrite find_none; [done|]. intros e He. by apply bool_decide_eq_false, Hnone.
  - rewrite (removeByID_spec _ s _ Hshape' fuel) by lia. unfold removal.
    rewrite find_none; [done|]. intros [[p' i'] c'] He.
    apply bool_decide_eq_false. apply searched_in_preorder in He.
    by apply (Hnone _ He).
Qed.

(** The scenario of the package: ["d1"] names [D] only; once removed from
    below [A] it is found no more. *)
Lemma removeByID_then_search_witness :
  getByID 3 (Some 1%positive) "d1" (remove_child 3%positive 0 scenario_heap)
    = Ok nil_ptr (remove_child 3%positive 0 scenario_heap)
  ∧ removeByID 3 (Some 1%positive) "d1" (remove_child 3%positive 0 scenario_heap)
    = Ok false (remove_child 3%positive 0 scenario_heap).
Proof.
  apply (removeByID_then_search scenario_heap _ scenario_tree "d1" 3).
  - repeat (constructor; try reflexivity).
  - simpl. lia.
  - compute_done.
  - reflexivity.
  - vm_compute. reflexivity.
Defined.

(** ** Insertion at the ends *)

(** X15. Inserting before the first child of [p] does to [p] and [x] what
    [p.Prepend] does: when [t], with parent [p] of Submenu kind, is at index
    0 of the children [l] of [p], [t.InsertBefore(x)] and [p.Prepend(x)]
    both return true, each in a heap where the children of [p] are
    [[x] ++ l] and [x] has parent [p].  Inserting after the last child does
    what [p.Append] does: when [t] is the last of the children of [p] and
    occurs nowhere before, [t.InsertAfter(x)] and [p.Append(x)] both return
    true, each in a heap where the children of [p] are [l ++ [x]] and [x]
    has parent [p]. *)
Theorem Insert_at_ends (h : heap) (t p x : loc) (nt np nx : MenuItem) :
  h !! t = Some nt → parent nt = Some p →
  h !! p = Some np → Type__ np = SubmenuType →
  h !! x = Some nx →
  (SubMenu_ np !! 0 = Some (Some t) →
     ∃ h1 h2, InsertBefore (Some t) (Some x) h = Ok true h1
              ∧ Prepend (Some p) (Some x) h = Ok true h2
              ∧ holds_child h1 p x (Some x :: SubMenu_ np)
              ∧ holds_child h2 p x (Some x :: SubMenu_ np))
  ∧ (∀ i, SubMenu_ np !! i = Some (Some t) → S i = length (SubMenu_ np) →
     (∀ j, j < i → SubMenu_ np !! j ≠ Some (Some t)) →
     ∃ h1 h2, InsertAfter (Some t) (Some x) h = Ok true h1
              ∧ Append (Some p) (Some x) h = Ok true h2
              ∧ holds_child h1 p x (SubMenu_ np ++ [Some x])
              ∧ holds_child h2 p x (SubMenu_ np ++ [Some x])).
Proof.
  intros Ht Hpar Hp Hty Hx.
  assert (∀ h' s, (∀ a, h' !! a = attach_node p x s a <$> h !! a) → holds_child h' p x s)
    as Hholds.
  { intros h' s Hlook. exists (attach_node p x s p np), (attach_node p x s x nx).
    split; [by rewrite Hlook, Hp|]. split; [by rewrite attach_node_SubMenu|].
    split; [by rewrite Hlook, Hx|]. unfold attach_node. simpl. by rewrite decide_True. }
  destruct (Append_Prepend_lookup h p x np nx Hp Hx Hty)
    as [(ha & Happ & Hla) (hp & Hpre & Hlp)].
  split.
  - intros Hfirst.
    destruct (Insert_found_lookup h t nt p np x nx 0 Ht Hpar Hp Hty Hfirst
                ltac:(intros; lia) Hx) as [_ (h' & Hrun & Hlook)].
    rewrite take_0, drop_0 in Hlook. simpl in Hlook.
    exists h', hp. split; [done|]. split; [done|]. split; by apply Hholds.
  - intros i Hi Hlast Hfirst.
    destruct (Insert_found_lookup h t nt p np x nx i Ht Hpar Hp Hty Hi Hfirst Hx)
      as [(h' & Hrun & Hlook) _].
    rewrite take_ge, drop_ge in Hlook by lia.
    exists h', ha. split; [done|]. split; [done|]. split; by apply Hholds.
Qed.

(** In the scenario tree, before [B] and after [C] among the children of
    [A]. *)
Lemma Insert_at_ends_witness :
  (∃ h1 h2, InsertBefore (Some 2%positive) (Some 5%positive) scenario_heap = Ok true h1
            ∧ Prepend (Some 1%positive) (Some 5%positive) scenario_heap = Ok true h2
            ∧ holds_child h1 1%positive 5%positive
                [Some 5%positive; Some 2%positive; Some 3%positive]
            ∧ holds_child h2 1%positive 5%positive
                [Some 5%positive; Some 2%positive; Some 3%positive])
  ∧ (∃ h1 h2, InsertAfter (Some 3%positive) (Some 5%positive) scenario_heap = Ok true h1
              ∧ Append (Some 1%positive) (Some 5%positive) scenario_heap = Ok true h2
              ∧ holds_child h1 1%positive 5%positive
                  [Some 2%positive; Some 3%positive; Some 5%positive]
              ∧ holds_child h2 1%positive 5%positive
                  [Some 2%positive; Some 3%positive; Some 5%positive]).
Proof.
  split.
  - destruct (Insert_at_ends scenario_heap 2%positive 1%positive 5%positive _ _ _
                eq_refl eq_refl eq_refl eq_refl eq_refl) as [Hfirst _].
    by apply Hfirst.
  - destruct (Insert_at_ends scenario_heap 3%positive 1%positive 5%positive _ _ _
                eq_refl eq_refl eq_refl eq_refl eq_refl) as [_ Hlast].
    apply (Hlast 1); [done..|].
    intros [|j] Hj; [simpl; discriminate|lia].
Defined.

(** ** The two searches under I3 *)

Lemma preorder_descendants (t : tree) :
  preorder t = (root t, content t) :: map place_node (descendants t).
Proof.
  induction t as [l n kids IH] using tree_ind'. cbn [preorder descendants root content].
  f_equal. generalize 0 as i0.
  induction IH as [|k ks Hk _ IHks]; intros i0; [done|].
  cbn [map concat walk]. rewrite Hk, map_app, <- IHks. by destruct k.
Qed.

Lemma find_map {A B} (f : B → bool) (g : A → B) (l : list A) :
  find f (map g l) = g <$> find (λ a, f (g a)) l.
Proof. induction l as [|a l IH]; simpl; [done|]. by destruct (f (g a)). Qed.

(** X16. On a tree that satisfies I3, and for an id [s] that is not the id of
    the receiver [m], lookup and removal agree: [m.getByID(s)] returns [nil]
    exactly when [m.removeByID(s)] returns false (the heap unchanged), and
    otherwise the struct that [getByID] returns is the one that [removeByID]
    takes out of the children of the struct that holds it. *)
Theorem searches_agree_under_I3 (h : heap) (t : tree) (s : string) (fuel : nat) :
  shape h t → I3_tree t → height t ≤ fuel →
  ID (content t) ≠ s →
  (getByID fuel (Some (root t)) s h = Ok nil_ptr h
   ∧ removeByID fuel (Some (root t)) s h = Ok false h)
  ∨ (∃ c p np i h' np',
       getByID fuel (Some (root t)) s h = Ok (Some c) h
       ∧ h !! p = Some np ∧ SubMenu_ np !! i = Some (Some c)
       ∧ removeByID fuel (Some (root t)) s h = Ok true h'
       ∧ h' !! p = Some np' ∧ SubMenu_ np' = delete i (SubMenu_ np)).
Proof.
  intros Hshape HI3 Hfuel Hid.
  rewrite (getByID_spec h s t Hshape fuel Hfuel).
  rewrite (removeByID_spec h s t Hshape fuel Hfuel). unfold removal.
  pose proof (searched_in_heap h t Hshape) as Hheap.
  assert (has_id s (root t, content t) = false) as Hroot
    by (by apply bool_decide_eq_false_2).
  rewrite (searched_I3 t HI3) in *. rewrite preorder_descendants. cbn [find].
  rewrite Hroot, find_map. change (λ a, has_id s (place_node a)) with (place_has_id s).
  pose proof (find_first_index (place_has_id s) (descendants t)) as Hfind.
  destruct (find (place_has_id s) (descendants t)) as [[[p i] c]|]; [|by left].
  destruct Hfind as (k & Hk & _). apply list_elem_of_lookup_2 in Hk.
  destruct (Hheap p i c Hk) as (np & Hp & Hi & _).
  right. exists (root c), p, np, i, (remove_child p i h),
    (with_SubMenu (delete i (SubMenu_ np)) np).
  split; [done|]. split; [done|]. split; [done|]. split; [done|].
  split; [|done].
  rewrite (remove_child_lookup h p np i Hp), Hp. simpl. by rewrite decide_True.
Qed.

Lemma searches_agree_under_I3_witness :
  ∃ c p np i h' np',
    getByID 3 (Some 1%positive) "d1" scenario_heap = Ok (Some c) scenario_heap
    ∧ scenario_heap !! p = Some np ∧ SubMenu_ np !! i = Some (Some c)
    ∧ removeByID 3 (Some 1%positive) "d1" scenario_heap = Ok true h'
    ∧ h' !! p = Some np' ∧ SubMenu_ np' = delete i (SubMenu_ np).
Proof.
  destruct (searches_agree_under_I3 scenario_heap scenario_tree "d1" 3)
    as [[Hnil _]|Hfound].
  - repeat (constructor; try reflexivity).
  - repeat (constructor; try (reflexivity || by intros ?)).
  - simpl. lia.
  - simpl. discriminate.
  - vm_compute in Hnil. discriminate.
  - exact Hfound.
Defined.

(** ** The submenu constructors and the invariants *)

Lemma construct_lookup (n0 : MenuItem) (items : list ptr) (h : heap) :
  Forall (allocated h) items →
  ∃ r h',
    (let! result := alloc n0 in
     exec! fix_up_parents result items in
     ret result) h = Ok (Some r) h'
    ∧ h !! r = None
    ∧ (Some r ∉ items)
    ∧ ∀ l, h' !! l = (if decide (l = r) then Some n0
                      else if decide (Some l ∈ items)
                           then with_parent (Some r) <$> h !! l
                           else h !! l).
Proof.
  intros Hall. set (r := fresh (dom h)).
  assert (h !! r = None) as Hr by (apply not_elem_of_dom, is_fresh).
  destruct (fix_up_parents_ok (Some r) items (<[r := n0]> h)) as (h' & Hrun & Hlook).
  { eapply Forall_impl; [exact Hall|]. intros p. apply allocated_insert. }
  assert (Some r ∉ items) as Hnew.
  { intros Hin. rewrite Forall_forall in Hall.
    destruct (Hall _ Hin) as (l & [= <-] & [n Hn]). congruence. }
  exists r, h'. split; [|split; [done|split; [done|]]].
  - unfold bind at 1. unfold alloc. fold r. by rewrite (bind_ok _ _ _ _ _ Hrun).
  - intros l. rewrite Hlook. destruct (decide (l = r)) as [->|Hlr].
    + rewrite decide_False by done. apply lookup_insert_eq.
    + by rewrite lookup_insert_ne.
Qed.

Lemma construct_keeps (n0 : MenuItem) (items : list ptr) (h : heap) :
  SubMenu_ n0 = items → parent n0 = None → Type__ n0 = SubmenuType →
  closed h → Forall (allocated h) items →
  (∀ x q, Some x ∈ items → ¬ child_of h x q) →
  built_over h items
    (let! result := alloc n0 in
     exec! fix_up_parents result items in
     ret result).
Proof.
  intros Hkids Hroot Hty Hclosed Hall Hfree.
  destruct (construct_lookup n0 items h Hall) as (r & h' & Hrun & Hr & Hnew & Hlook).
  exists r, h'. split; [exact Hrun|]. split; [exact Hr|].
  assert (∀ l n', h' !! l = Some n' → l ≠ r →
            ∃ n, h !! l = Some n ∧ SubMenu_ n' = SubMenu_ n ∧ Type__ n' = Type__ n
              ∧ parent n' = (if decide (Some l ∈ items) then Some r else parent n)) as Hold.
  { intros l n' Hl Hlr. rewrite Hlook, decide_False in Hl by done.
    destruct (decide (Some l ∈ items)).
    - destruct (h !! l) as [n|]; [|done]. injection Hl as <-. by exists n.
    - by exists n'. }
  assert (∀ l n, h !! l = Some n → ∃ n', h' !! l = Some n' ∧ SubMenu_ n' = SubMenu_ n) as Hkeep.
  { intros l n Hl. assert (l ≠ r) by congruence.
    rewrite Hlook, decide_False, Hl by done. case_decide; by eexists. }
  assert (h' !! r = Some n0) as Hr' by (by rewrite Hlook, decide_True).
  assert (∀ a, allocated h a → allocated h' a) as Halloc.
  { intros a (l & -> & [n Hl]). destruct (Hkeep l n Hl) as (n' & Hl' & _).
    exists l. split; [done|]. by exists n'. }
  assert (∀ a p, child_of h' a p ↔ child_of h a p ∨ (p = r ∧ Some a ∈ items)) as Hchild.
  { intros a p. split.
    - intros (np' & Hp' & Hin). destruct (decide (p = r)) as [->|Hpr].
      + right. split; [done|]. congruence.
      + left. destruct (Hold p np' Hp' Hpr) as (np & Hp & Hs & _).
        exists np. split; [done|]. by rewrite <- Hs.
    - intros [(np & Hp & Hin)|[-> Hin]].
      + destruct (Hkeep p np Hp) as (np' & Hp' & Hs). exists np'. split; [done|].
        by rewrite Hs.
      + exists n0. split; [done|]. by rewrite Hkids. }
  assert (∀ p, ¬ child_of h r p) as Hrfree.
  { intros p (np & Hp & Hin). destruct (Hclosed p np (Some r) Hp Hin) as (l & [= <-] & [n Hn]).
    congruence. }
  split; [|split; [|split]].
  - intros p np' a Hp' Hin. destruct (decide (p = r)) as [->|Hpr].
    + assert (np' = n0) as -> by congruence. rewrite Hkids in Hin.
      rewrite Forall_forall in Hall. by apply Halloc, Hall.
    + destruct (Hold p np' Hp' Hpr) as (np & Hp & Hs & _). rewrite Hs in Hin.
      by apply Halloc, (Hclosed p np).
  - intros HI1 a na' Ha'. destruct (decide (a = r)) as [->|Har].
    + assert (na' = n0) as -> by congruence. split; [|done].
      intros p [Hc|[_ Hin]]%Hchild; [by destruct (Hrfree p)|done].
    + destruct (Hold a na' Ha' Har) as (na & Ha & _ & _ & Hpar).
      destruct (I1_lookup h a na HI1 Ha) as [Hin Hnone]. rewrite Hpar.
      destruct (decide (Some a ∈ items)) as [Hitem|Hitem]; split.
      * intros p [Hc|[-> _]]%Hchild; [by destruct (Hfree a p)|done].
      * intros Hno. destruct (Hno r). apply Hchild. by right.
      * intros p [Hc|[_ ?]]%Hchild; [by apply Hin|done].
      * intros Hno. apply Hnone. intros p Hc. apply (Hno p), Hchild. by left.
  - intros HI2 Hnd p np' Hp'.
    assert (∀ q nq', h' !! q = Some nq' → q ≠ r → ∀ a, a ∈ items → a ∉ SubMenu_ nq') as Hsep.
    { intros q nq' Hq' Hqr a Ha Ha'. destruct (Hold q nq' Hq' Hqr) as (nq & Hq & Hs & _).
      rewrite Forall_forall in Hall. destruct (Hall a Ha) as (x & -> & _).
      apply (Hfree x q Ha). exists nq. split; [done|]. by rewrite <- Hs. }
    destruct (decide (p = r)) as [->|Hpr].
    + assert (np' = n0) as -> by congruence. rewrite Hkids. split; [done|].
      intros q nq' a Hq' Ha Ha'. destruct (decide (q = r)) as [->|Hqr]; [done|].
      by destruct (Hsep q nq' Hq' Hqr a).
    + destruct (Hold p np' Hp' Hpr) as (np & Hp & Hs & _).
      destruct (HI2 p np Hp) as [Hndp Hcross]. rewrite Hs. split; [done|].
      intros q nq' a Hq' Ha Ha'. destruct (decide (q = r)) as [->|Hqr].
      * assert (nq' = n0) as -> by congruence. rewrite Hkids in Ha'.
        destruct (Hsep p np' Hp' Hpr a Ha'). by rewrite Hs.
      * destruct (Hold q nq' Hq' Hqr) as (nq & Hq & Hsq & _). rewrite Hsq in Ha'.
        by apply (Hcross q nq a).
  - intros HI3 p np' Hp' Hne. destruct (decide (p = r)) as [->|Hpr].
    + congruence.
    + destruct (Hold p np' Hp' Hpr) as (np & Hp & Hs & Ht & _).
      rewrite Ht. apply (HI3 p np Hp). by rewrite <- Hs.
Qed.

(** X17. Let the children lists of the heap hold pointers to structs of the
    heap only, and let [items] be structs of the heap that are in no children
    list.  [SubMenu(label, items)] and [SubMenuWithID(label, id, items)]
    return a new struct in a heap where the children lists again hold
    pointers to structs only, and which satisfies I1 if the heap they started
    from did, I3 likewise, and I2 likewise provided no item is given
    twice. *)
Theorem SubMenu_constructors_keep_invariants (h : heap) (label id : string)
    (items : list ptr) :
  closed h → Forall (allocated h) items →
  (∀ x q, Some x ∈ items → ¬ child_of h x q) →
  built_over h items (SubMenu label items)
  ∧ built_over h items (SubMenuWithID label id items).
Proof.
  intros Hclosed Hall Hfree. split; by apply construct_keeps.
Qed.

Lemma closed_map (h : heap) :
  map_Forall (λ _ np, Forall (λ a : ptr, is_Some (a ≫= λ l, h !! l)) (SubMenu_ np)) h →
  closed h.
Proof.
  intros Hall p np a Hp Ha.
  pose proof (map_Forall_lookup_1 _ _ _ _ Hall Hp) as Hkids. simpl in Hkids.
  rewrite Forall_forall in Hkids. specialize (Hkids a Ha).
  destruct a as [l|]; [by exists l|]. by destruct Hkids.
Qed.

(** A submenu built over the detached item [E] and the root [A] of the
    scenario tree. *)
Lemma SubMenu_constructors_keep_invariants_witness :
  ∃ r h', SubMenu "more" [Some 5%positive; Some 1%positive] scenario_heap = Ok (Some r) h'
          ∧ I1 h' ∧ I2 h' ∧ I3 h'.
Proof.
  destruct (SubMenu_constructors_keep_invariants scenario_heap "more" ""
              [Some 5%positive; Some 1%positive])
    as [(r & h' & Hrun & _ & _ & H1 & H2 & H3) _].
  - apply closed_map. compute_done.
  - repeat apply Forall_cons_2; [| |apply Forall_nil_2];
      (eexists; split; [reflexivity|]; eexists; reflexivity).
  - intros x q Hx.
    assert (map_Forall (λ (q : loc) (nq : MenuItem),
              Some x ∈ SubMenu_ nq → False) scenario_heap) as Hall.
    { apply elem_of_cons in Hx as [[= ->]|Hx]; [compute_done|].
      apply elem_of_cons in Hx as [[= ->]|Hx]; [compute_done|].
      by apply elem_of_nil in Hx. }
    exact (child_of_map _ _ (λ _, False) Hall q).
  - destruct scenario_heap_invariants as (HI1 & HI2 & HI3).
    exists r, h'. split; [exact Hrun|]. split; [by apply H1|].
    split; [|by apply H3]. apply H2; [done|].
    apply NoDup_cons. split; [|apply NoDup_singleton].
    rewrite list_elem_of_singleton. discriminate.
Defined.

(** ** Failure writes nothing, success links the item *)

Lemma attached_links (h h' : heap) p x nx k c :
  h !! x = Some nx → c h = Ok true h' → attached_at h p x k h' →
  fails_or_links h x c.
Proof.
  intros Hx Hrun (np & Hp & Hty & Hk & Hlook). right.
  set (s := take k (SubMenu_ np) ++ Some x :: drop k (SubMenu_ np)) in *.
  exists h', p, np, (attach_node p x s p np).
  split; [done|]. split; [done|]. split; [done|].
  split; [by rewrite Hlook, Hp|]. rewrite attach_node_SubMenu.
  split; [apply elem_of_insert_between; by right|].
  split.
  - subst s. rewrite length_app, length_take. simpl. rewrite length_drop. lia.
  - assert (h' !! x = Some (attach_node p x s x nx)) as Hx' by (by rewrite Hlook, Hx).
    unfold Parent. rewrite (bind_ok _ _ _ _ _ (load_ok _ _ _ Hx')).
    unfold attach_node. simpl. by rewrite decide_True.
Qed.

(** X18. Given structs of the heap (for the insertions beside [t], the parent
    recorded in [t] too), each of [Append], [Prepend], [InsertAfter] and
    [InsertBefore] either returns false and leaves the heap as it was, or
    returns true in a heap where some struct [p] of Submenu kind has exactly
    one child more than before, the item is among the children of [p], and
    [Parent()] of the item returns [p]. *)
Theorem insertion_fails_or_links (h : heap) (x : loc) (nx : MenuItem) :
  h !! x = Some nx →
  (∀ m nm, h !! m = Some nm →
     fails_or_links h x (Append (Some m) (Some x))
     ∧ fails_or_links h x (Prepend (Some m) (Some x)))
  ∧ (∀ t nt, h !! t = Some nt →
     (∀ p, parent nt = Some p → is_Some (h !! p)) →
     fails_or_links h x (InsertAfter (Some t) (Some x))
     ∧ fails_or_links h x (InsertBefore (Some t) (Some x))).
Proof.
  intros Hx. split.
  - intros m nm Hm.
    destruct (Append_Prepend_outcome h m x nm nx Hm Hx)
      as [[Ha|(ha & Ha & Hatt)] [Hb|(hb & Hb & Hatt')]];
      split; try (by left); by eapply attached_links.
  - intros t nt Ht Halloc.
    destruct (Insert_outcome h t x nt nx Ht Hx Halloc)
      as [[Ha|(p & k & ha & _ & Ha & Hatt)] [Hb|(p' & k' & hb & _ & Hb & Hatt')]];
      split; try (by left); by eapply attached_links.
Qed.

Lemma insertion_fails_or_links_witness :
  fails_or_links scenario_heap 5%positive (Append (Some 3%positive) (Some 5%positive))
  ∧ fails_or_links scenario_heap 5%positive (Prepend (Some 2%positive) (Some 5%positive))
  ∧ fails_or_links scenario_heap 5%positive (InsertAfter (Some 4%positive) (Some 5%positive)).
Proof.
  destruct (insertion_fails_or_links scenario_heap 5%positive _ eq_refl) as [Hattach Hinsert].
  split; [exact (proj1 (Hattach 3%positive _ eq_refl))|].
  split; [exact (proj2 (Hattach 2%positive _ eq_refl))|].
  refine (proj1 (Hinsert 4%positive _ eq_refl _)).
  intros p [= <-]. by eexists.
Defined.

(** ** The first invariant *)

Lemma attached_linked (h h' : heap) p x nx k :
  h !! x = Some nx → attached_at h p x k h' → linked h' x p.
Proof.
  intros Hx (np & Hp & _ & _ & Hlook).
  set (s := take k (SubMenu_ np) ++ Some x :: drop k (SubMenu_ np)) in *.
  exists (attach_node p x s p np), (attach_node p x s x nx).
  split; [by rewrite Hlook, Hp|]. rewrite attach_node_SubMenu.
  split; [apply elem_of_insert_between; by right|].
  split; [by rewrite Hlook, Hx|].
  unfold attach_node. simpl. by rewrite decide_True.
Qed.

(** C1 as first stated fails on the tree [A -> [B, C -> [D]]], which
    satisfies I1, I2 and I3.  After [A.removeByID("d1")] the item [D] is in
    no children list and its parent is still [C]; after [C.Append(B)] the
    item [B] is still among the children of [A] and its parent is [C]. *)
Lemma I1_not_preserved :
  I1 scenario_heap ∧ I2 scenario_heap ∧ I3 scenario_heap
  ∧ shape scenario_heap scenario_tree
  ∧ (∃ h', removeByID 3 (Some 1%positive) "d1" scenario_heap = Ok true h' ∧ ¬ I1 h')
  ∧ (∃ h', Append (Some 3%positive) (Some 2%positive) scenario_heap = Ok true h' ∧ ¬ I1 h').
Proof.
  split; [compute_done|]. split; [compute_done|]. split; [compute_done|].
  split; [repeat (constructor; try reflexivity)|].
  split.
  - eexists. split; [vm_compute; reflexivity|]. compute_done.
  - eexists. split; [vm_compute; reflexivity|]. compute_done.
Qed.

(** C1, as amended. From a heap satisfying I1:
    [m.Prepend(x)] returns in a heap satisfying I1 when no struct other than
    [m] has [x] among its children;
    [m.Append(x)] returns false in the same heap, or true in a heap where
    [x] is among the children of [m] and has parent [m];
    [t.InsertAfter(x)] and [t.InsertBefore(x)] return false in the same
    heap, or true in a heap where [x] is among the children of the parent of
    [t] and has that parent;
    [m.removeByID(s)], when the heap satisfies I2 too, unfolds to a tree
    below [m] and the fuel covers its height, returns: either false in the
    same heap, or true having taken a child [c] with id [s] out of the
    children of some [p], in a heap where I1 holds at every struct other
    than [c], while [c] is in no children list and its parent is still [p].
    Nothing is stated of the other structs after [Append], [InsertAfter] and
    [InsertBefore], which store the item in the array of the receiver's
    slice.  Under I2 no two structs have a child in common, so the part of
    the array in which [removeByID] closes the gap belongs to the slice of
    [p] alone. *)
Theorem I1_preservation (h : heap) :
  I1 h →
  (∀ m x nm nx, h !! m = Some nm → h !! x = Some nx →
     (∀ q, child_of h x q → q = m) →
     ∃ b h', Prepend (Some m) (Some x) h = Ok b h' ∧ I1 h')
  ∧ (∀ m x nm nx, h !! m = Some nm → h !! x = Some nx →
     Append (Some m) (Some x) h = Ok false h
     ∨ ∃ h', Append (Some m) (Some x) h = Ok true h' ∧ linked h' x m)
  ∧ (∀ t x nt nx, h !! t = Some nt → h !! x = Some nx →
     (InsertAfter (Some t) (Some x) h = Ok false h
      ∨ ∃ h' p, parent nt = Some p
                ∧ InsertAfter (Some t) (Some x) h = Ok true h' ∧ linked h' x p)
     ∧ (InsertBefore (Some t) (Some x) h = Ok false h
        ∨ ∃ h' p, parent nt = Some p
                  ∧ InsertBefore (Some t) (Some x) h = Ok true h' ∧ linked h' x p))
  ∧ (I2 h → ∀ t s fuel, shape h t → height t ≤ fuel →
     ∃ b h', removeByID fuel (Some (root t)) s h = Ok b h'
       ∧ ((b = false ∧ h' = h)
          ∨ (b = true
             ∧ ∃ p c nc nc', child_of h c p ∧ h !! c = Some nc ∧ ID nc = s
                 ∧ h' !! c = Some nc' ∧ parent nc' = Some p
                 ∧ (∀ q, ¬ child_of h' c q)
                 ∧ ∀ a, a ≠ c → I1_at h' a))).
Proof.
  intros HI1. split; [|split; [|split]].
  - intros m x nm nx. by apply Prepend_keep_I1.
  - intros m x nm nx Hm Hx.
    destruct (Append_Prepend_outcome h m x nm nx Hm Hx) as [[Ha|(ha & Ha & Hatt)] _].
    + by left.
    + right. exists ha. split; [done|]. by eapply attached_linked.
  - intros t x nt nx Ht Hx.
    assert (∀ p, parent nt = Some p → is_Some (h !! p)) as Halloc.
    { intros p Hpar. destruct (I1_parent_holds h t nt p HI1 Ht Hpar) as (np & Hp & _).
      by exists np. }
    destruct (Insert_outcome h t x nt nx Ht Hx Halloc)
      as [[Ha|(p & k & ha & Hpar & Ha & Hatt)] [Hb|(p' & k' & hb & Hpar' & Hb & Hatt')]];
      split; try (by left); right.
    all: try (exists ha, p; split; [done|]; split; [done|]; by eapply attached_linked).
    all: exists hb, p'; split; [done|]; split; [done|]; by eapply attached_linked.
  - intros HI2 t s fuel. by apply removeByID_keep_I1.
Qed.

(** On the scenario tree: prepending the detached item [E] to [C] keeps I1,
    appending it to [C] or inserting it after [B] links it, and removing [D]
    keeps I1 at every struct but [D]. *)
Lemma I1_preservation_witness :
  (∃ b h', Prepend (Some 3%positive) (Some 5%positive) scenario_heap = Ok b h' ∧ I1 h')
  ∧ (∃ h', Append (Some 3%positive) (Some 5%positive) scenario_heap = Ok true h'
           ∧ linked h' 5%positive 3%positive)
  ∧ (∃ h', InsertAfter (Some 2%positive) (Some 5%positive) scenario_heap = Ok true h'
           ∧ linked h' 5%positive 1%positive)
  ∧ (∃ b h', removeByID 3 (Some 1%positive) "d1" scenario_heap = Ok b h'
       ∧ ∀ a, a ≠ 4%positive → I1_at h' a).
Proof.
  destruct (I1_preservation scenario_heap (proj1 scenario_heap_invariants))
    as (Hprepend & Happend & Hinsert & Hremove).
  split; [|split; [|split]].
  - refine (Hprepend 3%positive 5%positive _ _ eq_refl eq_refl _).
    apply child_of_map. compute_done.
  - destruct (Happend 3%positive 5%positive _ _ eq_refl eq_refl) as [Hno|Hyes].
    + vm_compute in Hno. discriminate.
    + exact Hyes.
  - destruct (Hinsert 2%positive 5%positive _ _ eq_refl eq_refl) as [[Hno|Hyes] _].
    + vm_compute in Hno. discriminate.
    + destruct Hyes as (h' & p & Hpar & Hrun & Hlink).
      injection Hpar as <-. by exists h'.
  - destruct (Hremove (proj1 (proj2 scenario_heap_invariants)) scenario_tree "d1" 3)
      as (b & h' & Hrun & Heffect).
    + repeat (constructor; try reflexivity).
    + simpl. lia.
    + exists b, h'. split; [exact Hrun|].
      destruct Heffect
        as [[Hb ->]|(Hb & p & c & nc & nc' & _ & Hc & Hid & _ & _ & _ & Hothers)].
      * cbn [root scenario_tree] in Hrun. vm_compute in Hrun. subst b. discriminate.
      * assert (c = 4%positive) as ->; [|exact Hothers].
        revert Hc Hid. clear. intros Hc Hid.
        destruct (decide (c = 4%positive)) as [->|Hne]; [done|]. exfalso.
        assert (map_Forall (λ a na, ID na = "d1" → a = 4%positive) scenario_heap)
          as Hall by compute_done.
        by apply Hne, (map_Forall_lookup_1 _ _ _ _ Hall Hc).
Defined.
